(** * Account and credential authority: a shallow embedding

    The development follows the two modules of the server that own user
    accounts (authentication, creation, login provenance, temporary
    passwords, custom weights) and companies (gateway lookup, partner
    permissions).  Asynchronous functions become computations in a small
    state-and-rejection monad over a [World] holding the database tables,
    the company gateway, the clock and the random salt source. *)

From Stdlib Require Import ZArith List String Ascii Bool Lia.
Import ListNotations.

Set Warnings "-register-all".

Local Open Scope string_scope.
Local Open Scope Z_scope.

(** ** JavaScript values that flow through the account objects *)

Module Js.

(** [Null] stands for both [null] and [undefined]; a number is kept by
    its canonical [ToString] rendering. *)
Inductive value : Type :=
| Null
| Bool (b : bool)
| Num (repr : string)
| Str (s : string)
| Arr (items : list value)
| Obj (fields : list (string * value)).

(** ToBoolean. *)
Definition truthy (v : value) : bool :=
  match v with
  | Null => false
  | Bool b => b
  | Num repr => negb (String.eqb repr "0" || String.eqb repr "NaN")
  | Str s => negb (String.eqb s EmptyString)
  | Arr _ => true
  | Obj _ => true
  end.

(** ToString; an array is its elements joined by commas, with [null]
    elements rendered empty (Array.prototype.join). *)
Fixpoint toString (v : value) : string :=
  match v with
  | Null => "null"
  | Bool true => "true"
  | Bool false => "false"
  | Num repr => repr
  | Str s => s
  | Arr items =>
      String.concat ","
        (List.map (fun x => match x with Null => EmptyString | _ => toString x end)
                  items)
  | Obj _ => "[object Object]"
  end.

(** SameValueZero against a string: only an equal string is the same. *)
Definition same_as_string (tag : string) (v : value) : bool :=
  match v with
  | Str s => String.eqb s tag
  | _ => false
  end.

(** Array.prototype.includes for a string argument. *)
Definition includes (items : list value) (tag : string) : bool :=
  existsb (same_as_string tag) items.

(** A nullable text column or argument read as a JavaScript value. *)
Definition of_text (o : option string) : value :=
  match o with
  | None => Null
  | Some s => Str s
  end.

(** JSON whitespace, and the characters a JSON text can begin with:
    an object, an array, a string, a number or one of the three
    literals. *)
Definition json_space (c : ascii) : bool :=
  let n := nat_of_ascii c in
  ((n =? 32) || (n =? 9) || (n =? 10) || (n =? 13))%nat.

Definition json_first (c : ascii) : bool :=
  let n := nat_of_ascii c in
  ((n =? 123) || (n =? 91) || (n =? 34) || (n =? 45)
   || ((48 <=? n) && (n <=? 57))
   || (n =? 116) || (n =? 102) || (n =? 110))%nat.

Fixpoint json_start_ok (s : string) : bool :=
  match s with
  | EmptyString => false
  | String c rest => if json_space c then json_start_ok rest else json_first c
  end.

End Js.

(** ** Rejections *)

(** What a rejected promise carries: an [Error] with its message, the
    built-in [TypeError] and [SyntaxError], or the failure of the company
    gateway. *)
Inductive exn : Type :=
| Error (message : string)
| TypeError
| SyntaxError
| TenantLookupFailed.

Inductive outcome (A : Type) : Type :=
| Resolved (a : A)
| Rejected (e : exn).

Arguments Resolved {A} a.
Arguments Rejected {A} e.

(** The four messages [authenticate] throws, under the names the
    specification gives them. *)
Definition AccountNotFound : exn := Error "Username cannot be found".
Definition AccountDeactivated : exn := Error "Your accout has been deactivated".
Definition TenantTermExpired : exn := Error "Your company subscription has expired".
Definition InvalidCredential : exn := Error "Invalid password".

(** ** The world the modules act on *)

Module Store.

(** A row of table [users].  Nullable columns are options. *)
Record UserRow : Type := {
  id : Z;
  email : string;
  encrypted_password : option string;
  terms_accepted_at : option Z;
  role : string;
  company_id : option Z;
  created_by_id : option Z;
  status : string;
  notice_email_sent : option bool;
  login_types : option string;
  temp_password : option string;
  temp_password_expire_time : option Z
}.

(** A row of table [custom_weights]. *)
Record WeightRow : Type := {
  user_id : Z;
  property_type : string;
  safety : Z;
  trnsprt : Z;
  vitalty : Z;
  economc : Z;
  sptl_dm : Z;
  amenity : Z
}.

(** A row of table [company_partner_permissions]. *)
Record PermissionRow : Type := {
  perm_company_id : Z;
  partner : string
}.

(** A company record as the gateway serves it; times are milliseconds
    since the epoch. *)
Record Company : Type := {
  co_id : Z;
  company_name : string;
  max_active_users : Z;
  end_date : Z;
  notice_date : Z
}.

(** The three tables, the sequence behind [users.id], the directory
    behind the company gateway and whether it answers, the clock that
    [moment()] reads, the salt the next hash will draw, and counters of
    the queries sent to the database and of the calls made to the
    gateway. *)
Record World : Type := {
  users : list UserRow;
  custom_weights : list WeightRow;
  company_partner_permissions : list PermissionRow;
  users_id_seq : Z;
  companies : list Company;
  gateway_up : bool;
  now : Z;
  salt : string;
  db_queries : nat;
  gateway_calls : nat
}.

Definition with_users (us : list UserRow) (w : World) : World :=
  {| users := us;
     custom_weights := custom_weights w;
     company_partner_permissions := company_partner_permissions w;
     users_id_seq := users_id_seq w;
     companies := companies w;
     gateway_up := gateway_up w;
     now := now w;
     salt := salt w;
     db_queries := db_queries w;
     gateway_calls := gateway_calls w |}.

Definition with_custom_weights (cw : list WeightRow) (w : World) : World :=
  {| users := users w;
     custom_weights := cw;
     company_partner_permissions := company_partner_permissions w;
     users_id_seq := users_id_seq w;
     companies := companies w;
     gateway_up := gateway_up w;
     now := now w;
     salt := salt w;
     db_queries := db_queries w;
     gateway_calls := gateway_calls w |}.

Definition with_users_id_seq (n : Z) (w : World) : World :=
  {| users := users w;
     custom_weights := custom_weights w;
     company_partner_permissions := company_partner_permissions w;
     users_id_seq := n;
     companies := companies w;
     gateway_up := gateway_up w;
     now := now w;
     salt := salt w;
     db_queries := db_queries w;
     gateway_calls := gateway_calls w |}.

Definition with_now (t : Z) (w : World) : World :=
  {| users := users w;
     custom_weights := custom_weights w;
     company_partner_permissions := company_partner_permissions w;
     users_id_seq := users_id_seq w;
     companies := companies w;
     gateway_up := gateway_up w;
     now := t;
     salt := salt w;
     db_queries := db_queries w;
     gateway_calls := gateway_calls w |}.

Definition count_db_query (w : World) : World :=
  {| users := users w;
     custom_weights := custom_weights w;
     company_partner_permissions := company_partner_permissions w;
     users_id_seq := users_id_seq w;
     companies := companies w;
     gateway_up := gateway_up w;
     now := now w;
     salt := salt w;
     db_queries := S (db_queries w);
     gateway_calls := gateway_calls w |}.

Definition count_gateway_call (w : World) : World :=
  {| users := users w;
     custom_weights := custom_weights w;
     company_partner_permissions := company_partner_permissions w;
     users_id_seq := users_id_seq w;
     companies := companies w;
     gateway_up := gateway_up w;
     now := now w;
     salt := salt w;
     db_queries := db_queries w;
     gateway_calls := S (gateway_calls w) |}.

(** Partial updates of a [users] row: the named columns change, the
    others are copied. *)
Definition set_encrypted_password (h : option string) (r : UserRow) : UserRow :=
  {| id := id r;
     email := email r;
     encrypted_password := h;
     terms_accepted_at := terms_accepted_at r;
     role := role r;
     company_id := company_id r;
     created_by_id := created_by_id r;
     status := status r;
     notice_email_sent := notice_email_sent r;
     login_types := login_types r;
     temp_password := temp_password r;
     temp_password_expire_time := temp_password_expire_time r |}.

Definition set_login_types (l : option string) (r : UserRow) : UserRow :=
  {| id := id r;
     email := email r;
     encrypted_password := encrypted_password r;
     terms_accepted_at := terms_accepted_at r;
     role := role r;
     company_id := company_id r;
     created_by_id := created_by_id r;
     status := status r;
     notice_email_sent := notice_email_sent r;
     login_types := l;
     temp_password := temp_password r;
     temp_password_expire_time := temp_password_expire_time r |}.

Definition set_temp_password (h : option string) (t : option Z) (r : UserRow)
  : UserRow :=
  {| id := id r;
     email := email r;
     encrypted_password := encrypted_password r;
     terms_accepted_at := terms_accepted_at r;
     role := role r;
     company_id := company_id r;
     created_by_id := created_by_id r;
     status := status r;
     notice_email_sent := notice_email_sent r;
     login_types := login_types r;
     temp_password := h;
     temp_password_expire_time := t |}.

Definition set_weights (sa tr vi ec sp am : Z) (r : WeightRow) : WeightRow :=
  {| user_id := user_id r;
     property_type := property_type r;
     safety := sa;
     trnsprt := tr;
     vitalty := vi;
     economc := ec;
     sptl_dm := sp;
     amenity := am |}.

(** *** Promises as state-passing computations *)

Definition M (A : Type) : Type := World -> outcome A * World.

Definition ret {A : Type} (a : A) : M A := fun w => (Resolved a, w).

Definition throw {A : Type} (e : exn) : M A := fun w => (Rejected e, w).

Definition bind {A B : Type} (m : M A) (k : A -> M B) : M B :=
  fun w =>
    match m w with
    | (Resolved a, w') => k a w'
    | (Rejected e, w') => (Rejected e, w')
    end.

Declare Scope promise_scope.
Delimit Scope promise_scope with promise.

Notation "x <- m ;; k" := (bind m (fun x => k))
  (at level 100, m at next level, right associativity) : promise_scope.
Notation "m ;;; k" := (bind m (fun _ => k))
  (at level 100, right associativity) : promise_scope.

Local Open Scope promise_scope.

Definition get {A : Type} (f : World -> A) : M A := fun w => (Resolved (f w), w).

Definition modify (f : World -> World) : M unit := fun w => (Resolved tt, f w).

(** [moment()]. *)
Definition moment : M Z := get now.

(** *** The query builder, one definition per shape of query *)

(** [connection("users").where(...)]: the matching rows, in table order. *)
Definition users_where (p : UserRow -> bool) : M (list UserRow) :=
  modify count_db_query ;;;
  rows <- get users ;;
  ret (filter p rows).

(** [.limit(1)]. *)
Definition limit1 {A : Type} (rows : list A) : list A :=
  match rows with
  | [] => []
  | r :: _ => [r]
  end.

(** [.first()]: the first matching row, or [undefined]. *)
Definition first {A : Type} (rows : list A) : option A :=
  match rows with
  | [] => None
  | r :: _ => Some r
  end.

(** [connection("users").where(...).update(...)]: a partial update of the
    matching rows; the others are left as they are. *)
Definition users_update (p : UserRow -> bool) (f : UserRow -> UserRow) : M unit :=
  modify count_db_query ;;;
  rows <- get users ;;
  modify (with_users (map (fun r => if p r then f r else r) rows)).

(** The columns an insert into [users] provides. *)
Record NewUser : Type := {
  new_email : string;
  new_encrypted_password : option string;
  new_company_id : option Z;
  new_created_by_id : option Z;
  new_role : string
}.

(** Modelled from the spec: the schema of table [users] is not part of
    the sources; a new row takes its id from the table's sequence, has
    status active (the state an account is created in), no accepted
    terms, no notice sent, no login types and no temporary password. *)
Definition users_new_row (n : Z) (u : NewUser) : UserRow :=
  {| id := n;
     email := new_email u;
     encrypted_password := new_encrypted_password u;
     terms_accepted_at := None;
     role := new_role u;
     company_id := new_company_id u;
     created_by_id := new_created_by_id u;
     status := "active";
     notice_email_sent := Some false;
     login_types := None;
     temp_password := None;
     temp_password_expire_time := None |}.

(** [connection.insert(...).into("users").returning(...)]: the rows
    inserted. *)
Definition users_insert (u : NewUser) : M (list UserRow) :=
  modify count_db_query ;;;
  n <- get users_id_seq ;;
  rows <- get users ;;
  let row := users_new_row n u in
  modify (fun w => with_users_id_seq (n + 1) (with_users (rows ++ [row]) w)) ;;;
  ret [row].

Definition weights_where (p : WeightRow -> bool) : M (list WeightRow) :=
  modify count_db_query ;;;
  rows <- get custom_weights ;;
  ret (filter p rows).

Definition weights_insert (r : WeightRow) : M unit :=
  modify count_db_query ;;;
  rows <- get custom_weights ;;
  modify (with_custom_weights (rows ++ [r])).

(** [.update(...).returning("*")]: the rows after the update. *)
Definition weights_update (p : WeightRow -> bool) (f : WeightRow -> WeightRow)
  : M (list WeightRow) :=
  modify count_db_query ;;;
  rows <- get custom_weights ;;
  modify (with_custom_weights (map (fun r => if p r then f r else r) rows)) ;;;
  ret (map f (filter p rows)).

Definition permissions_where (p : PermissionRow -> bool) : M (list PermissionRow) :=
  modify count_db_query ;;;
  rows <- get company_partner_permissions ;;
  ret (filter p rows).

(** [connection("users").where(...).del()]. *)
Definition users_del (p : UserRow -> bool) : M unit :=
  modify count_db_query ;;;
  rows <- get users ;;
  modify (with_users (filter (fun r => negb (p r)) rows)).

(** [connection.fn.now()]: the time the database puts in the column;
    the database is taken to share the clock that [moment()] reads. *)
Definition fn_now : M Z := get now.

Definition set_status (st : string) (r : UserRow) : UserRow :=
  {| id := id r;
     email := email r;
     encrypted_password := encrypted_password r;
     terms_accepted_at := terms_accepted_at r;
     role := role r;
     company_id := company_id r;
     created_by_id := created_by_id r;
     status := st;
     notice_email_sent := notice_email_sent r;
     login_types := login_types r;
     temp_password := temp_password r;
     temp_password_expire_time := temp_password_expire_time r |}.

Definition set_terms_accepted_at (t : option Z) (r : UserRow) : UserRow :=
  {| id := id r;
     email := email r;
     encrypted_password := encrypted_password r;
     terms_accepted_at := t;
     role := role r;
     company_id := company_id r;
     created_by_id := created_by_id r;
     status := status r;
     notice_email_sent := notice_email_sent r;
     login_types := login_types r;
     temp_password := temp_password r;
     temp_password_expire_time := temp_password_expire_time r |}.

Definition set_notice_email_sent (b : option bool) (r : UserRow) : UserRow :=
  {| id := id r;
     email := email r;
     encrypted_password := encrypted_password r;
     terms_accepted_at := terms_accepted_at r;
     role := role r;
     company_id := company_id r;
     created_by_id := created_by_id r;
     status := status r;
     notice_email_sent := b;
     login_types := login_types r;
     temp_password := temp_password r;
     temp_password_expire_time := temp_password_expire_time r |}.

End Store.

(** ** Imported primitives *)

(** bcryptjs: [hash] of a plaintext under a salt and a number of rounds,
    and [compare] of a plaintext against a hash. *)
Class Bcrypt : Type := {
  hash : string -> string -> nat -> string;
  compare : string -> string -> bool
}.

(** The built-in String.prototype.toLowerCase, which folds every cased
    letter of the string, the ASCII ones and all others. *)
Class StringCase : Type := {
  toLowerCase : string -> string
}.

(** The built-in JSON object; [JSON_parse] is [None] where JSON.parse
    throws a SyntaxError. *)
Class Json : Type := {
  JSON_parse : string -> option Js.value;
  JSON_stringify : Js.value -> string
}.

(** helpers/asArray, which is not part of the sources. *)
Class AsArray : Type := {
  asArray : Js.value -> list Js.value
}.

(** ** Companies *)

Module Companies.

Import Store.
Local Open Scope promise_scope.

Definition DEFAULT_COMPANY_PARTNER_PERMISSIONS : list string :=
  [ "cls";
    "cmbs";
    "cmm";
    "compstak";
    "val";
    "reis";
    "infabode";
    "commercialex";
    "enricheddata";
    "retailmarketpoint";
    "databuffet";
    "fourtwentyseven" ].

(** Modelled from the spec: helpers/presence is not part of the sources;
    a null company id is blank, and a lookup for it short-circuits to no
    company. *)
Definition isBlank (companyId : option Z) : bool :=
  match companyId with
  | None => true
  | Some _ => false
  end.

(** Modelled from the spec: services/companies/apiClient is not part of
    the sources; the gateway serves the company record with the given id
    (null when there is none), and when it cannot be reached the call
    fails and the failure propagates. *)
Definition apiClient_getCompany_by_id (companyId : Z) : M (option Company) :=
  modify count_gateway_call ;;;
  up <- get gateway_up ;;
  if up : bool then
    cs <- get companies ;;
    ret (find (fun c => co_id c =? companyId) cs)
  else throw TenantLookupFailed.

Definition getCompany (companyId : option Z) : M (option Company) :=
  if isBlank companyId then ret None
  else
    match companyId with
    | Some i => apiClient_getCompany_by_id i
    | None => ret None
    end.

Definition getCompanyPartnerPermissions (companyId : Z) : M (list string) :=
  permissions <- permissions_where (fun r => perm_company_id r =? companyId) ;;
  if (List.length permissions =? 0)%nat then ret DEFAULT_COMPANY_PARTNER_PERMISSIONS
  else ret (map partner permissions).

End Companies.

(** ** Users *)

(** The account object [toUser] builds. *)
Module User.

Record t : Type := {
  id : Z;
  email : string;
  termsAcceptedAt : option Z;
  role : string;
  company_id : option Z;
  status : string;
  notice_email_sent : option bool;
  login_types : Js.value
}.

(** [{ ...user, login_types: v }]. *)
Definition with_login_types (v : Js.value) (u : t) : t :=
  {| id := id u;
     email := email u;
     termsAcceptedAt := termsAcceptedAt u;
     role := role u;
     company_id := company_id u;
     status := status u;
     notice_email_sent := notice_email_sent u;
     login_types := v |}.

End User.

Module Users.

Import Store.
Local Open Scope promise_scope.

Definition toUser (row : UserRow) : User.t :=
  {| User.id := id row;
     User.email := email row;
     User.termsAcceptedAt := terms_accepted_at row;
     User.role := role row;
     User.company_id := company_id row;
     User.status := status row;
     User.notice_email_sent := notice_email_sent row;
     User.login_types := Js.of_text (login_types row) |}.

(** [.returning(["id", "email", "role", "status"])]: the row object
    holds these four columns and no other. *)
Definition returning_id_email_role_status (row : UserRow) : UserRow :=
  {| id := id row;
     email := email row;
     encrypted_password := None;
     terms_accepted_at := None;
     role := role row;
     company_id := None;
     created_by_id := None;
     status := status row;
     notice_email_sent := None;
     login_types := None;
     temp_password := None;
     temp_password_expire_time := None |}.

(** Modelled from the spec: helpers/auth is not part of the sources; an
    account passes the status check when its status is active. *)
Definition statusActive (st : string) : bool := String.eqb st "active".

(** Modelled from the spec: helpers/auth is not part of the sources; the
    term of a company is valid while the current time is before its end
    date, and no company means no gating. *)
Definition companyTermActive (company : option Company) : M bool :=
  match company with
  | None => ret true
  | Some c => t <- moment ;; ret (t <? end_date c)
  end.

(** [await hash(plaintext, rounds)], salted from the world. *)
Definition bcrypt_hash `{Bcrypt} (plaintext : string) (rounds : nat) : M string :=
  s <- get salt ;;
  ret (hash s plaintext rounds).

(** [await compare(plaintext, hashed)]. *)
Definition bcrypt_compare `{Bcrypt} (plaintext hashed : string) : M bool :=
  ret (compare plaintext hashed).

(** What [authenticate] resolves to: [false], or the account. *)
Inductive authenticated : Type :=
| NotAuthenticated
| Authenticated (user : User.t).

Definition authenticate `{Bcrypt} {fold : StringCase}
  (email_ : string) (password : option string) : M authenticated :=
  if negb (Js.truthy (Js.of_text password)) then ret NotAuthenticated
  else
    userRows <- (rows <- users_where
                           (fun r => String.eqb (email r) (toLowerCase email_)) ;;
                 ret (limit1 rows)) ;;
    match userRows with
    | [] => throw (Error "Username cannot be found")
    | userRow :: _ =>
        company <- Companies.getCompany (company_id userRow) ;;
        if negb (statusActive (status userRow))
        then throw (Error "Your accout has been deactivated")
        else
          termActive <- companyTermActive company ;;
          if negb termActive
          then throw (Error "Your company subscription has expired")
          else
            if negb (Js.truthy (Js.of_text (encrypted_password userRow)))
            then throw (Error "Invalid password")
            else
              result <- bcrypt_compare
                          (Js.toString (Js.of_text password))
                          (Js.toString (Js.of_text (encrypted_password userRow))) ;;
              if negb result then throw (Error "Invalid password")
              else ret (Authenticated (toUser userRow))
    end.

(** Ramda's [contains], against a list of strings: only a string equal
    to one of them is found. *)
Definition contains (x : Js.value) (l : list string) : bool :=
  existsb (fun s => Js.same_as_string s x) l.

Definition roles : list string := ["user"; "admin"; "superadmin"].

(** [create] resolves to [rows[0]], which is [undefined] for no row.
    The role asked for is any value; the one stored is a string. *)
Definition create `{Bcrypt} {fold : StringCase}
  (email_ : string) (password : option string)
  (role_ : Js.value) (company_id_ created_by_id_ : option Z) : M (option User.t) :=
  encrypted_password_ <-
    (if Js.truthy (Js.of_text password)
     then h <- bcrypt_hash (Js.toString (Js.of_text password)) 10 ;; ret (Some h)
     else ret None) ;;
  let acceptableRole := if contains role_ roles then role_ else Js.Str "user" in
  rows <- users_insert
            {| new_email := toLowerCase email_;
               new_encrypted_password := encrypted_password_;
               new_company_id := company_id_;
               new_created_by_id := created_by_id_;
               new_role := Js.toString acceptableRole |} ;;
  ret (first (map toUser (map returning_id_email_role_status rows))).

(** A synchronous function, so its result is an outcome: it throws
    where JSON.parse does. *)
Definition getUserLoginTypes `{Json} `{AsArray} (user : option User.t)
  : outcome (list Js.value) :=
  match user with
  | None => Resolved []
  | Some u =>
      if Js.truthy (User.login_types u)
      then
        match JSON_parse (Js.toString (User.login_types u)) with
        | Some v => Resolved (asArray v)
        | None => Rejected SyntaxError
        end
      else Resolved []
  end.

Definition lift {A : Type} (o : outcome A) : M A := fun w => (o, w).

(** [user.id] of a null user is a TypeError, thrown while the update is
    being built and before any query is sent. *)
Definition updateUserLoginTypes `{Json} `{AsArray} (user : option User.t)
  (loginType : string) : M (option User.t) :=
  loginTypes <- lift (getUserLoginTypes user) ;;
  if negb (Js.includes loginTypes loginType)
  then
    let loginTypes' := (loginTypes ++ [Js.Str loginType])%list in
    match user with
    | None => throw TypeError
    | Some u =>
        users_update (fun r => id r =? User.id u)
          (set_login_types (Some (JSON_stringify (Js.Arr loginTypes')))) ;;;
        ret (Some (User.with_login_types (Js.Arr loginTypes') u))
    end
  else ret user.

(** Ten minutes, in milliseconds. *)
Definition ten_minutes : Z := 10 * 60 * 1000.

Definition setTemporaryPassword `{Bcrypt} (userId : Z) (tempPassword : string)
  : M unit :=
  hashedTempPassword <- bcrypt_hash tempPassword 10 ;;
  t <- moment ;;
  users_update (fun r => id r =? userId)
    (set_temp_password (Some hashedTempPassword) (Some (t + ten_minutes))).

(** What [setUsersCustomWeights] resolves to: the reply to the insert,
    or the rows the update returned. *)
Inductive weights_reply : Type :=
| Inserted
| Updated (rows : list WeightRow).

Definition same_key (user_id_ : Z) (property_type_ : string) (r : WeightRow)
  : bool :=
  (user_id r =? user_id_) && String.eqb (property_type r) property_type_.

Definition setUsersCustomWeights (user_id_ : Z) (property_type_ : string)
  (safety_ trnsprt_ vitalty_ economc_ sptl_dm_ amenity_ : Z) : M weights_reply :=
  matchingEntry <- (rows <- weights_where (same_key user_id_ property_type_) ;;
                    ret (first rows)) ;;
  match matchingEntry with
  | Some _ =>
      weights_insert
        {| user_id := user_id_;
           property_type := property_type_;
           safety := safety_;
           trnsprt := trnsprt_;
           vitalty := vitalty_;
           economc := economc_;
           sptl_dm := sptl_dm_;
           amenity := amenity_ |} ;;;
      ret Inserted
  | None =>
      updatedEntry <- weights_update (same_key user_id_ property_type_)
                        (set_weights safety_ trnsprt_ vitalty_ economc_
                                     sptl_dm_ amenity_) ;;
      ret (Updated updatedEntry)
  end.

(** A timestamp column read back is a date object or [null]; a date
    object is truthy. *)
Definition is_null {A : Type} (o : option A) : bool :=
  match o with
  | None => true
  | Some _ => false
  end.

(** [moment() < moment(expireTime)], false for the invalid date that
    [moment(null)] is. *)
Definition before (t : Z) (expireTime : option Z) : bool :=
  match expireTime with
  | Some expire => t <? expire
  | None => false
  end.

(** Destructuring the [undefined] that [.first()] gives for no row is a
    TypeError. *)
Definition checkTemporaryPassword `{Bcrypt} (userId : Z) (tempPassword : string)
  : M bool :=
  row <- (rows <- users_where (fun r => id r =? userId) ;; ret (first rows)) ;;
  match row with
  | None => throw TypeError
  | Some r =>
      let hashedTempPassword := temp_password r in
      let expireTime := temp_password_expire_time r in
      if negb (Js.truthy (Js.of_text hashedTempPassword)) || is_null expireTime
      then ret false
      else
        correctTempPassword <-
          bcrypt_compare tempPassword
            (Js.toString (Js.of_text hashedTempPassword)) ;;
        t <- moment ;;
        ret (correctTempPassword && before t expireTime)
  end.

Definition changePassword `{Bcrypt} (userId : Z) (newPassword : string) : M unit :=
  newHashedPassword <- bcrypt_hash newPassword 10 ;;
  users_update (fun r => id r =? userId)
    (set_encrypted_password (Some newHashedPassword)).

(** What [find] resolves to: [false], or the account. *)
Inductive found : Type :=
| NotFound
| Found (user : User.t).

Definition find (id_ : Z) : M found :=
  found_users <- (rows <- users_where (fun r => id r =? id_) ;;
                  ret (map toUser (limit1 rows))) ;;
  match found_users with
  | u :: _ => ret (Found u)
  | [] => ret NotFound
  end.

(** The whole row, or [undefined]. *)
Definition findUserByEmail {fold : StringCase} (email_ : string)
  : M (option UserRow) :=
  rows <- users_where (fun r => String.eqb (email r) (toLowerCase email_)) ;;
  ret (first rows).

Definition acceptTermsOfService (userId : Z) : M unit :=
  t <- fn_now ;;
  users_update (fun r => id r =? userId) (set_terms_accepted_at (Some t)).

(** [.select(["id", "email", "role", "status", "notice_email_sent",
    "login_types"])]: the row object holds these six columns. *)
Definition listed_columns (row : UserRow) : UserRow :=
  {| id := id row;
     email := email row;
     encrypted_password := None;
     terms_accepted_at := None;
     role := role row;
     company_id := None;
     created_by_id := None;
     status := status row;
     notice_email_sent := notice_email_sent row;
     login_types := login_types row;
     temp_password := None;
     temp_password_expire_time := None |}.

Definition of_company (companyId : Z) (r : UserRow) : bool :=
  match company_id r with
  | Some c => c =? companyId
  | None => false
  end.

Definition allActiveUsersOfCompany (companyId : Z) : M (list UserRow) :=
  userRows <- users_where
                (fun r => of_company companyId r && String.eqb (status r) "active") ;;
  ret (map listed_columns userRows).

Definition remove (userId : Z) : M unit :=
  users_del (fun r => id r =? userId).

Definition deactivate (userId : Z) : M unit :=
  users_update (fun r => id r =? userId) (set_status "inactive").

Definition activate (userId : Z) : M unit :=
  users_update (fun r => id r =? userId) (set_status "active").

Definition updateNoticeEmailSent (userId : Z) : M unit :=
  users_update (fun r => id r =? userId) (set_notice_email_sent (Some true)).

Definition getInitialCustomWeights (userId : Z) : M (list WeightRow) :=
  weights_where (fun r => user_id r =? userId).

End Users.

(** ** Stand-ins for the imported primitives, and sample worlds

    The statements below are about any implementation of the imported
    primitives; these concrete ones let them be run on examples. *)

Module Sample.

Import Store.

(** A hash that keeps the plaintext behind a marker, so that [compare]
    succeeds exactly on the plaintext that was hashed. *)
Definition marker_bcrypt : Bcrypt :=
  {| hash := fun _ plaintext _ => String "$" plaintext;
     compare := fun plaintext hashed => String.eqb hashed (String "$" plaintext) |}.

(** A fold of the letters A to Z that keeps every other character: it
    is the built-in on strings of ASCII characters. *)
Definition lower_ascii (c : ascii) : ascii :=
  let n := nat_of_ascii c in
  if ((65 <=? n) && (n <=? 90))%nat then ascii_of_nat (n + 32) else c.

Fixpoint ascii_toLowerCase (s : string) : string :=
  match s with
  | EmptyString => EmptyString
  | String c rest => String (lower_ascii c) (ascii_toLowerCase rest)
  end.

Definition ascii_case : StringCase :=
  {| toLowerCase := ascii_toLowerCase |}.

Definition quote : ascii := ascii_of_nat 34.
Definition backslash : ascii := ascii_of_nat 92.

(** The body of a string literal up to its closing quote, and what
    follows it; escapes are not read. *)
Fixpoint read_string (s : string) : option (string * string) :=
  match s with
  | EmptyString => None
  | String c rest =>
      if Ascii.eqb c quote then Some (EmptyString, rest)
      else if Ascii.eqb c backslash then None
      else
        match read_string rest with
        | Some (body, after) => Some (String c body, after)
        | None => None
        end
  end.

Fixpoint read_items (fuel : nat) (s : string) : option (list string) :=
  match fuel with
  | O => None
  | S fuel' =>
      match s with
      | String c rest =>
          if Ascii.eqb c quote then
            match read_string rest with
            | Some (body, String d after) =>
                if Ascii.eqb d "," then
                  option_map (cons body) (read_items fuel' after)
                else if Ascii.eqb d "]" then
                  match after with
                  | EmptyString => Some [body]
                  | _ => None
                  end
                else None
            | _ => None
            end
          else None
      | EmptyString => None
      end
  end.

(** A reader of arrays of escape-free string literals, without
    whitespace; every other text is refused. *)
Definition parse_string_array (s : string) : option Js.value :=
  match s with
  | String c rest =>
      if Ascii.eqb c "[" then
        if String.eqb rest "]" then Some (Js.Arr [])
        else option_map (fun l => Js.Arr (map Js.Str l))
                        (read_items (String.length rest) rest)
      else None
  | EmptyString => None
  end.

Definition quoted (v : Js.value) : string :=
  match v with
  | Js.Str s => String quote (s ++ String quote EmptyString)
  | _ => "null"
  end.

Definition stringify_string_array (v : Js.value) : string :=
  match v with
  | Js.Arr items => "[" ++ String.concat "," (map quoted items) ++ "]"
  | _ => quoted v
  end.

Definition string_array_json : Json :=
  {| JSON_parse := parse_string_array;
     JSON_stringify := stringify_string_array |}.

(** The usual helper: an array is itself, anything else a singleton. *)
Definition wrap_as_array : AsArray :=
  {| asArray := fun v => match v with Js.Arr items => items | _ => [v] end |}.

Definition user_row (i : Z) (mail : string) (pw : option string)
  (co : option Z) (st : string) : UserRow :=
  {| id := i;
     email := mail;
     encrypted_password := pw;
     terms_accepted_at := None;
     role := "user";
     company_id := co;
     created_by_id := None;
     status := st;
     notice_email_sent := Some false;
     login_types := None;
     temp_password := None;
     temp_password_expire_time := None |}.

Definition weight_row (u : Z) (pt : string) (x : Z) : WeightRow :=
  {| user_id := u;
     property_type := pt;
     safety := x;
     trnsprt := x;
     vitalty := x;
     economc := x;
     sptl_dm := x;
     amenity := x |}.

(** Company 7 has a term that ended at time 500; company 8 runs until
    time 5000. *)
Definition lapsed : Company :=
  {| co_id := 7;
     company_name := "lapsed";
     max_active_users := 5;
     end_date := 500;
     notice_date := 400 |}.

Definition running : Company :=
  {| co_id := 8;
     company_name := "running";
     max_active_users := 5;
     end_date := 5000;
     notice_date := 4000 |}.

(** Four accounts: an active one without a company, an inactive one of
    the lapsed company, an active one of the lapsed company, all three
    with password "secret", and an active one of the running company
    that has no password stored.  One weighting profile and one partner permission.
    The clock stands at 1000. *)
Definition world : World :=
  {| users :=
       [ user_row 1 "ann@example.com" (Some "$secret") None "active";
         user_row 2 "bob@example.com" (Some "$secret") (Some 7) "inactive";
         user_row 3 "cyd@example.com" (Some "$secret") (Some 7) "active";
         user_row 4 "dee@example.com" None (Some 8) "active" ];
     custom_weights := [ weight_row 1 "office" 10 ];
     company_partner_permissions :=
       [ {| perm_company_id := 8; partner := "reis" |} ];
     users_id_seq := 5;
     companies := [ lapsed; running ];
     gateway_up := true;
     now := 1000;
     salt := "salt";
     db_queries := 0;
     gateway_calls := 0 |}.

(** The same world while the company gateway cannot be reached. *)
Definition world_gateway_down : World :=
  {| users := users world;
     custom_weights := custom_weights world;
     company_partner_permissions := company_partner_permissions world;
     users_id_seq := users_id_seq world;
     companies := companies world;
     gateway_up := false;
     now := now world;
     salt := salt world;
     db_queries := db_queries world;
     gateway_calls := gateway_calls world |}.

(** The account object of the first user, as [toUser] builds it from
    the stored row. *)
Definition ann : User.t :=
  {| User.id := 1;
     User.email := "ann@example.com";
     User.termsAcceptedAt := None;
     User.role := "user";
     User.company_id := None;
     User.status := "active";
     User.notice_email_sent := Some false;
     User.login_types := Js.Null |}.

(** The first user holding the array of one login type. *)
Definition ann_with_password : User.t :=
  User.with_login_types (Js.Arr [Js.Str "password"]) ann.

(** The sample world after a temporary password was set for user 1. *)
Definition world_with_temporary : World :=
  snd (Users.setTemporaryPassword (H := marker_bcrypt) 1 "abc123" world).

End Sample.

(** ** What the statements read from the tables *)

Import Store.
Import Users.
Import Companies.

(** The permission rows of a company, in table order. *)
Definition permissions_of (companyId : Z) (w : World) : list PermissionRow :=
  filter (fun r => perm_company_id r =? companyId) (company_partner_permissions w).

(** The account a login with this email finds: the first row whose
    stored email is the lower-case form of the one given. *)
Definition account_of {fold : StringCase} (email_ : string) (w : World)
  : option UserRow :=
  first (filter (fun r => String.eqb (email r) (toLowerCase email_)) (users w)).

(** The row [checkTemporaryPassword] reads for an id. *)
Definition row_of (userId : Z) (w : World) : option UserRow :=
  first (filter (fun r => id r =? userId) (users w)).

(** The profiles stored under a key. *)
Definition profiles_of (user_id_ : Z) (property_type_ : string) (w : World)
  : list WeightRow :=
  filter (same_key user_id_ property_type_) (custom_weights w).

(** Whether the term of the company an account belongs to is valid at
    a time, as the login reads it. *)
Definition term_valid (company : option Company) (t : Z) : bool :=
  match company with
  | None => true
  | Some c => t <? end_date c
  end.

(** The hash [create] stores for a secret: none for a missing or empty
    one. *)
Definition created_hash `{Bcrypt} (password : option string) (w : World)
  : option string :=
  if Js.truthy (Js.of_text password)
  then Some (hash (salt w) (Js.toString (Js.of_text password)) 10)
  else None.

(** The profiles of a user, for every property type. *)
Definition weights_of (userId : Z) (w : World) : list WeightRow :=
  filter (fun r => user_id r =? userId) (custom_weights w).

(** How many times a login type occurs in a list. *)
Definition occurrences (loginType : string) (l : list Js.value) : nat :=
  List.length (filter (Js.same_as_string loginType) l).

(** Unfolds the promise combinators and the query builder down to
    functions on worlds. *)
Ltac run :=
  cbv beta delta
    [bind ret throw get modify moment lift
     users_where users_update users_insert users_del fn_now
     weights_where weights_insert weights_update permissions_where
     bcrypt_hash bcrypt_compare companyTermActive
     getCompany apiClient_getCompany_by_id] in *;
  cbn in *.

(** * Properties *)

(** ** Strings *)

Lemma lower_ascii_idempotent (c : ascii) :
  Sample.lower_ascii (Sample.lower_ascii c) = Sample.lower_ascii c.
Proof.
  destruct c as [[] [] [] [] [] [] [] []]; reflexivity.
Qed.

Lemma ascii_toLowerCase_idempotent (s : string) :
  Sample.ascii_toLowerCase (Sample.ascii_toLowerCase s) = Sample.ascii_toLowerCase s.
Proof.
  induction s as [| c rest IH]; cbn.
  - reflexivity.
  - now rewrite lower_ascii_idempotent, IH.
Qed.

Lemma contains_In (x : Js.value) (l : list string) :
  contains x l = true <-> exists s, x = Js.Str s /\ In s l.
Proof.
  unfold contains. rewrite existsb_exists. split.
  - intros [s [Hs Heq]]. destruct x; try discriminate.
    cbn in Heq. apply String.eqb_eq in Heq. subst. now exists s.
  - intros [s [-> Hs]]. exists s. split; [exact Hs | apply String.eqb_refl].
Qed.

(** ** Partner permissions *)

(** C6: [getCompanyPartnerPermissions] resolves to the fixed list of
    twelve default partners, from "cls" to "fourtwentyseven", when the
    company has no permission row, and to exactly the partners of its
    rows, with no default merged in, when it has at least one. *)
Theorem getCompanyPartnerPermissions_default_or_rows (companyId : Z) (w : World) :
  (permissions_of companyId w = [] ->
   fst (getCompanyPartnerPermissions companyId w)
   = Resolved [ "cls"; "cmbs"; "cmm"; "compstak"; "val"; "reis"; "infabode";
                "commercialex"; "enricheddata"; "retailmarketpoint";
                "databuffet"; "fourtwentyseven" ])
  /\ (permissions_of companyId w <> [] ->
      fst (getCompanyPartnerPermissions companyId w)
      = Resolved (map partner (permissions_of companyId w)))
  /\ List.length DEFAULT_COMPANY_PARTNER_PERMISSIONS = 12%nat.
Proof.
  unfold getCompanyPartnerPermissions, permissions_of. run.
  repeat split.
  - intros Hnone. now rewrite Hnone.
  - intros Hsome.
    destruct (filter _ (company_partner_permissions w)) as [| r rows];
      [congruence | reflexivity].
Qed.

(** The statement above, run on the sample world. *)
Lemma getCompanyPartnerPermissions_default_or_rows_witness :
  fst (getCompanyPartnerPermissions 7 Sample.world)
  = Resolved DEFAULT_COMPANY_PARTNER_PERMISSIONS
  /\ fst (getCompanyPartnerPermissions 8 Sample.world) = Resolved ["reis"].
Proof.
  split.
  - apply (getCompanyPartnerPermissions_default_or_rows 7 Sample.world).
    reflexivity.
  - apply (getCompanyPartnerPermissions_default_or_rows 8 Sample.world).
    discriminate.
Defined.

(** ** Authentication *)

Section Authentication.

Context `{Bcrypt} {fold : StringCase}.

(** C2, as amended: with an empty secret, or none, [authenticate]
    resolves to [false] and no error is raised; it leaves the world as
    it found it: no query is sent to the database and no call is made
    to the gateway. *)
Theorem authenticate_empty_secret_resolves_false (email_ : string) (w : World) :
  authenticate email_ (Some EmptyString) w = (Resolved NotAuthenticated, w)
  /\ authenticate email_ None w = (Resolved NotAuthenticated, w)
  /\ db_queries (snd (authenticate email_ (Some EmptyString) w)) = db_queries w
  /\ gateway_calls (snd (authenticate email_ (Some EmptyString) w))
     = gateway_calls w.
Proof.
  repeat split.
Qed.

(** With a secret that is not empty, the account is always looked up:
    exactly one query is sent to the database, whatever the outcome. *)
Lemma authenticate_secret_reads_once (email_ password : string) (w : World) :
  password <> EmptyString ->
  db_queries (snd (authenticate email_ (Some password) w)) = S (db_queries w).
Proof.
  intros Hsecret.
  assert (Htruthy : Js.truthy (Js.of_text (Some password)) = true).
  { destruct password; [congruence | reflexivity]. }
  unfold authenticate. rewrite Htruthy. cbn [negb].
  unfold getCompany, isBlank. run.
  destruct (filter _ (users w)) as [| r rows]; cbn; [reflexivity |].
  destruct (company_id r) as [i |]; cbn.
  - destruct (gateway_up w); cbn; [| reflexivity].
    destruct (statusActive (status r)); cbn; [| reflexivity].
    destruct (List.find _ (companies w)) as [c |]; cbn.
    + destruct (now w <? end_date c); cbn; [| reflexivity].
      destruct (Js.truthy (Js.of_text (encrypted_password r))); cbn;
        [| reflexivity].
      destruct (compare _ _); reflexivity.
    + destruct (Js.truthy (Js.of_text (encrypted_password r))); cbn;
        [| reflexivity].
      destruct (compare _ _); reflexivity.
  - destruct (statusActive (status r)); cbn; [| reflexivity].
    destruct (Js.truthy (Js.of_text (encrypted_password r))); cbn;
      [| reflexivity].
    destruct (compare _ _); reflexivity.
Qed.

(** C10: two spellings of an email with the same lower-case form log
    in alike, with the same outcome and the same final world; a spelling
    logs in as its lower-case form does, the built-in leaving a
    lower-case form as it is; and [create] stores the lower-case form of
    the email it is given.  This is for whatever letters the email
    holds: the fold is the built-in, not a table of this file. *)
Theorem authenticate_and_create_normalize_case
  (email_ variant : string) (password : option string) (w : World) :
  (toLowerCase variant = toLowerCase email_ ->
   authenticate variant password w = authenticate email_ password w)
  /\ (toLowerCase (toLowerCase email_) = toLowerCase email_ ->
      toLowerCase variant = toLowerCase email_ ->
      authenticate variant password w
      = authenticate (toLowerCase email_) password w)
  /\ (forall role_ company created_by,
        exists row,
          users (snd (create email_ password role_ company created_by w))
          = (users w ++ [row])%list
          /\ email row = toLowerCase email_
          /\ fst (create email_ password role_ company created_by w)
             = Resolved (Some (toUser (returning_id_email_role_status row)))).
Proof.
  split; [| split].
  - intros Hvariant. unfold authenticate. now rewrite Hvariant.
  - intros Hfixed Hvariant. unfold authenticate. now rewrite Hfixed, Hvariant.
  - intros role_ company created_by. unfold create. run.
    destruct (Js.truthy (Js.of_text password)); cbn;
      eexists; repeat split.
Qed.

(** The lookup of a company succeeds for an account without a company,
    whatever the state of the gateway, and otherwise exactly when the
    gateway answers. *)
Lemma getCompany_resolves (companyId : option Z) (w : World) (company : option Company) :
  fst (getCompany companyId w) = Resolved company <->
  (companyId = None /\ company = None)
  \/ (exists i, companyId = Some i /\ gateway_up w = true
                /\ company = List.find (fun c => co_id c =? i) (companies w)).
Proof.
  unfold getCompany, isBlank. destruct companyId as [i |]; run.
  - destruct (gateway_up w); cbn; split.
    + intros [= <-]. right. now exists i.
    + intros [[? _] | [j [[= <-] [_ ->]]]]; [discriminate | reflexivity].
    + discriminate.
    + intros [[? _] | [j [_ [? _]]]]; discriminate.
  - split.
    + intros [= <-]. now left.
    + intros [[_ ->] | [j [? _]]]; [reflexivity | discriminate].
Qed.

(** C3, as amended: for a non-empty secret, [authenticate] first
    reports a missing account.  For an account that is found it then
    looks the company up, and a failure of that lookup is what it
    reports, whatever the status of the account is.  When the lookup
    succeeds, it reports a status that is not active whatever the term of
    the company, the secret and the stored hash are; for an active
    account of a company whose term has ended it reports the expired term
    whatever the secret and the stored hash are; and only for an active
    account whose term is valid does it come to the credential, rejecting
    a missing hash and a secret that does not compare, and resolving to
    the account otherwise. *)
Theorem authenticate_reports_status_then_term
  (email_ password : string) (w : World) :
  password <> EmptyString ->
  (account_of email_ w = None ->
   fst (authenticate email_ (Some password) w) = Rejected AccountNotFound)
  /\ (forall r,
        account_of email_ w = Some r ->
        (forall failure,
           fst (getCompany (company_id r) w) = Rejected failure ->
           fst (authenticate email_ (Some password) w) = Rejected failure)
        /\ (forall company,
              fst (getCompany (company_id r) w) = Resolved company ->
              (statusActive (status r) = false ->
               fst (authenticate email_ (Some password) w)
               = Rejected AccountDeactivated)
              /\ (statusActive (status r) = true ->
                  (exists c, company = Some c /\ end_date c <= now w) ->
                  fst (authenticate email_ (Some password) w)
                  = Rejected TenantTermExpired)
              /\ (statusActive (status r) = true ->
                  (forall c, company = Some c -> now w < end_date c) ->
                  fst (authenticate email_ (Some password) w)
                  = match encrypted_password r with
                    | None => Rejected InvalidCredential
                    | Some EmptyString => Rejected InvalidCredential
                    | Some stored =>
                        if compare password stored
                        then Resolved (Authenticated (toUser r))
                        else Rejected InvalidCredential
                    end))).
Proof.
  intros Hsecret.
  assert (Htruthy : Js.truthy (Js.of_text (Some password)) = true).
  { destruct password; [congruence | reflexivity]. }
  unfold authenticate, account_of. rewrite Htruthy. cbn [negb].
  split.
  - intros Hnone. run.
    destruct (filter _ (users w)); [reflexivity | discriminate].
  - intros r Hfound.
    assert (Hrows : exists rows,
              filter (fun r0 => String.eqb (email r0) (toLowerCase email_)) (users w)
              = r :: rows).
    { destruct (filter _ (users w)) as [| r0 rows]; [discriminate |].
      cbn in Hfound. injection Hfound as ->. now exists rows. }
    destruct Hrows as [rows Hrows]. clear Hfound.
    split.
    + intros failure Hlookup.
      unfold getCompany, isBlank in *. run. rewrite Hrows. cbn.
      destruct (company_id r) as [i |]; cbn in *; [| discriminate].
      destruct (gateway_up w); cbn in *; [discriminate |].
      now injection Hlookup as <-.
    + intros company Hlookup.
      apply getCompany_resolves in Hlookup.
      unfold getCompany, isBlank. run. rewrite Hrows. cbn.
      destruct Hlookup as [[Hco ->] | [i [Hco [Hup ->]]]]; rewrite Hco; cbn.
      * split; [| split].
        -- intros ->. reflexivity.
        -- intros _ [c [? _]]. discriminate.
        -- intros -> _. cbn.
           destruct (encrypted_password r) as [[| d stored] |]; cbn;
             try reflexivity.
           destruct (compare _ _); reflexivity.
      * rewrite Hup. cbn. split; [| split].
        -- intros ->. reflexivity.
        -- intros -> [c [-> Hended]]. cbn.
           apply Z.ltb_ge in Hended. now rewrite Hended.
        -- intros -> Hvalid. cbn.
           destruct (List.find _ (companies w)) as [c |]; cbn.
           ++ specialize (Hvalid c eq_refl). apply Z.ltb_lt in Hvalid.
              rewrite Hvalid. cbn.
              destruct (encrypted_password r) as [[| d stored] |]; cbn;
                try reflexivity.
              destruct (compare _ _); reflexivity.
           ++ destruct (encrypted_password r) as [[| d stored] |]; cbn;
                try reflexivity.
              destruct (compare _ _); reflexivity.
Qed.

End Authentication.

(** C3, as stated, fails: while the gateway cannot be reached, the
    login of a deactivated account that belongs to a company is rejected
    with the failure of the lookup, which is made before the status is
    looked at; and with an empty secret the login of that account
    resolves to [false] before anything is looked at. *)
Lemma authenticate_deactivated_while_gateway_down :
  account_of (fold := Sample.ascii_case) "bob@example.com" Sample.world_gateway_down
  = Some (Sample.user_row 2 "bob@example.com" (Some "$secret") (Some 7) "inactive")
  /\ statusActive "inactive" = false
  /\ fst (authenticate (H := Sample.marker_bcrypt) (fold := Sample.ascii_case) "bob@example.com" (Some "secret")
                       Sample.world_gateway_down)
     = Rejected TenantLookupFailed
  /\ fst (authenticate (H := Sample.marker_bcrypt) (fold := Sample.ascii_case) "bob@example.com" (Some "secret")
                       Sample.world_gateway_down)
     <> Rejected AccountDeactivated
  /\ fst (authenticate (H := Sample.marker_bcrypt) (fold := Sample.ascii_case) "bob@example.com"
                       (Some EmptyString) Sample.world)
     = Resolved NotAuthenticated.
Proof.
  repeat split. cbv. discriminate.
Qed.

(** The statement above, run on the sample world. *)
Lemma authenticate_reports_status_then_term_witness :
  fst (authenticate (H := Sample.marker_bcrypt) (fold := Sample.ascii_case)
         "bob@example.com" (Some "secret") Sample.world)
  = Rejected AccountDeactivated
  /\ fst (authenticate (H := Sample.marker_bcrypt) (fold := Sample.ascii_case)
            "cyd@example.com" (Some "wrong") Sample.world)
     = Rejected TenantTermExpired
  /\ fst (authenticate (H := Sample.marker_bcrypt) (fold := Sample.ascii_case)
            "bob@example.com" (Some "secret") Sample.world_gateway_down)
     = Rejected TenantLookupFailed.
Proof.
  split; [| split].
  - apply (proj2 (authenticate_reports_status_then_term
                    (H := Sample.marker_bcrypt) (fold := Sample.ascii_case)
                    "bob@example.com" "secret" Sample.world ltac:(discriminate))
             (Sample.user_row 2 "bob@example.com" (Some "$secret") (Some 7) "inactive")
             eq_refl)
      with (company := Some Sample.lapsed);
      reflexivity.
  - apply (proj2 (authenticate_reports_status_then_term
                    (H := Sample.marker_bcrypt) (fold := Sample.ascii_case)
                    "cyd@example.com" "wrong" Sample.world ltac:(discriminate))
             (Sample.user_row 3 "cyd@example.com" (Some "$secret") (Some 7) "active")
             eq_refl)
      with (company := Some Sample.lapsed);
      try reflexivity.
    exists Sample.lapsed. split; [reflexivity | cbn; lia].
  - apply (proj2 (authenticate_reports_status_then_term
                    (H := Sample.marker_bcrypt) (fold := Sample.ascii_case)
                    "bob@example.com" "secret" Sample.world_gateway_down
                    ltac:(discriminate))
             (Sample.user_row 2 "bob@example.com" (Some "$secret") (Some 7) "inactive")
             eq_refl).
    reflexivity.
Defined.

(** C2, as stated, fails: the login with an empty secret is not
    rejected with the invalid-credential error. *)
Lemma authenticate_empty_secret_not_rejected :
  fst (authenticate (H := Sample.marker_bcrypt) (fold := Sample.ascii_case) "ann@example.com" (Some EmptyString)
                    Sample.world)
  <> Rejected InvalidCredential.
Proof.
  cbn. discriminate.
Qed.

(** The statement above, run on the sample world. *)
Lemma authenticate_and_create_normalize_case_witness :
  fst (authenticate (H := Sample.marker_bcrypt) (fold := Sample.ascii_case)
         "Ann@Example.COM" (Some "secret") Sample.world)
  = Resolved (Authenticated Sample.ann)
  /\ authenticate (H := Sample.marker_bcrypt) (fold := Sample.ascii_case)
       "Ann@Example.COM" (Some "secret") Sample.world
     = authenticate (H := Sample.marker_bcrypt) (fold := Sample.ascii_case)
         "ann@example.com" (Some "secret") Sample.world
  /\ authenticate (H := Sample.marker_bcrypt) (fold := Sample.ascii_case)
       "Ann@Example.COM" (Some "secret") Sample.world
     = authenticate (H := Sample.marker_bcrypt) (fold := Sample.ascii_case)
         "ANN@example.com" (Some "secret") Sample.world.
Proof.
  split; [reflexivity |]. split.
  - apply (proj1 (proj2 (authenticate_and_create_normalize_case
                           (H := Sample.marker_bcrypt) (fold := Sample.ascii_case)
                           "ANN@example.com" "Ann@Example.COM" (Some "secret")
                           Sample.world))).
    + apply (ascii_toLowerCase_idempotent "ANN@example.com").
    + reflexivity.
  - apply (proj1 (authenticate_and_create_normalize_case
                    (H := Sample.marker_bcrypt) (fold := Sample.ascii_case)
                    "ANN@example.com" "Ann@Example.COM" (Some "secret")
                    Sample.world)).
    reflexivity.
Defined.

(** ** Rows read back after an update *)

Lemma filter_update {A : Type} (p : A -> bool) (f : A -> A) (l : list A) :
  (forall r, p (f r) = p r) ->
  filter p (map (fun r => if p r then f r else r) l) = map f (filter p l).
Proof.
  intros Hkey. induction l as [| r l IH]; cbn.
  - reflexivity.
  - destruct (p r) eqn:Hr.
    + rewrite Hkey, Hr. cbn. now rewrite IH.
    + rewrite Hr. exact IH.
Qed.

Lemma first_map {A B : Type} (f : A -> B) (l : list A) :
  first (map f l) = option_map f (first l).
Proof.
  destruct l; reflexivity.
Qed.

Lemma first_filter_none {A : Type} (p : A -> bool) (l : list A) :
  (forall r, In r l -> p r = false) -> first (filter p l) = None.
Proof.
  induction l as [| r l IH]; cbn; intros Hnone.
  - reflexivity.
  - rewrite (Hnone r) by now left. apply IH. intros r' Hin. apply Hnone. now right.
Qed.

Lemma first_filter_some {A : Type} (p : A -> bool) (l : list A) :
  (exists r, In r l /\ p r = true) ->
  exists r, first (filter p l) = Some r /\ In r l /\ p r = true.
Proof.
  induction l as [| r l IH]; cbn; intros [x [Hin Hx]].
  - contradiction.
  - destruct (p r) eqn:Hr.
    + exists r. cbn. auto.
    + destruct Hin as [-> | Hin]; [congruence |].
      destruct IH as [y [Hy [Hyin Hyp]]]; [now exists x |].
      exists y. auto.
Qed.

(** ** Temporary passwords *)

Section TemporaryPassword.

Context `{Bcrypt}.

(** What [checkTemporaryPassword] does, by the row it reads. *)
Lemma checkTemporaryPassword_by_row (userId : Z) (tempPassword : string) (w : World) :
  fst (checkTemporaryPassword userId tempPassword w)
  = match row_of userId w with
    | None => Rejected TypeError
    | Some r =>
        if negb (Js.truthy (Js.of_text (temp_password r)))
           || is_null (temp_password_expire_time r)
        then Resolved false
        else Resolved
               (compare tempPassword (Js.toString (Js.of_text (temp_password r)))
                && before (now w) (temp_password_expire_time r))
    end.
Proof.
  unfold checkTemporaryPassword, row_of. run.
  destruct (first (filter _ (users w))) as [r |]; [| reflexivity].
  destruct (negb _ || _); reflexivity.
Qed.

Lemma row_of_setTemporaryPassword (userId : Z) (tempPassword : string) (w : World) :
  row_of userId (snd (setTemporaryPassword userId tempPassword w))
  = option_map
      (set_temp_password (Some (hash (salt w) tempPassword 10))
                         (Some (now w + ten_minutes)))
      (row_of userId w).
Proof.
  unfold setTemporaryPassword, row_of. run.
  rewrite filter_update by reflexivity. apply first_map.
Qed.

(** The value of a check made at a later time, after a temporary
    password was set for an existing user. *)
Lemma checkTemporaryPassword_value_after_set
  (userId : Z) (plaintext candidate : string) (w : World) (later : Z) :
  (forall s p n, hash s p n <> EmptyString) ->
  (exists r, In r (users w) /\ id r = userId) ->
  fst (checkTemporaryPassword userId candidate
         (with_now later (snd (setTemporaryPassword userId plaintext w))))
  = Resolved (compare candidate (hash (salt w) plaintext 10)
              && (later <? now w + ten_minutes)).
Proof.
  intros Htruthy Hexists.
  rewrite checkTemporaryPassword_by_row.
  change (row_of userId (with_now later (snd (setTemporaryPassword userId plaintext w))))
    with (row_of userId (snd (setTemporaryPassword userId plaintext w))).
  rewrite row_of_setTemporaryPassword.
  destruct (first_filter_some (fun r => id r =? userId) (users w))
    as [r [Hr _]].
  { destruct Hexists as [r [Hin Hid]]. exists r. split; [exact Hin |].
    now apply Z.eqb_eq. }
  unfold row_of. rewrite Hr. cbn.
  destruct (hash (salt w) plaintext 10) eqn:Hstored.
  - exfalso. now apply (Htruthy (salt w) plaintext 10%nat).
  - reflexivity.
Qed.

(** C4: once [setTemporaryPassword] has stored, for an existing user,
    the hash of the plaintext and the expiry ten minutes after the
    current time, whatever temporary password was there before,
    [checkTemporaryPassword] resolves to true exactly when the candidate
    compares equal to the stored hash of that plaintext and the current
    time is strictly before the expiry; it resolves to false on a
    mismatch, and from the expiry on. *)
Theorem checkTemporaryPassword_after_setTemporaryPassword
  (userId : Z) (plaintext candidate : string) (w : World) (later : Z) :
  (forall s p n, hash s p n <> EmptyString) ->
  (exists r, In r (users w) /\ id r = userId) ->
  let stored := hash (salt w) plaintext 10 in
  let expiry := now w + 10 * 60 * 1000 in
  let w1 := snd (setTemporaryPassword userId plaintext w) in
  fst (setTemporaryPassword userId plaintext w) = Resolved tt
  /\ (forall r, In r (users w1) -> id r = userId ->
                temp_password r = Some stored
                /\ temp_password_expire_time r = Some expiry)
  /\ (fst (checkTemporaryPassword userId candidate (with_now later w1))
      = Resolved true
      <-> compare candidate stored = true /\ later < expiry)
  /\ (compare candidate stored = false ->
      fst (checkTemporaryPassword userId candidate (with_now later w1))
      = Resolved false)
  /\ (expiry <= later ->
      fst (checkTemporaryPassword userId candidate (with_now later w1))
      = Resolved false).
Proof.
  intros Htruthy Hexists stored expiry w1.
  pose proof (checkTemporaryPassword_value_after_set
                userId plaintext candidate w later Htruthy Hexists) as Hcheck.
  fold w1 stored in Hcheck. change (now w + ten_minutes) with expiry in Hcheck.
  split; [reflexivity |].
  split.
  { intros r Hin Hid. subst w1. unfold setTemporaryPassword in Hin. run.
    apply in_map_iff in Hin. destruct Hin as [r0 [Hr0 _]].
    apply Z.eqb_eq in Hid.
    destruct (id r0 =? userId) eqn:Hid0.
    - subst r. split; reflexivity.
    - subst r. congruence. }
  rewrite Hcheck. split; [split | split].
  - intros [= Hboth]. apply andb_prop in Hboth. destruct Hboth as [Hmatch Hlt].
    split; [exact Hmatch | now apply Z.ltb_lt].
  - intros [Hmatch Hlt]. apply Z.ltb_lt in Hlt. now rewrite Hmatch, Hlt.
  - intros ->. reflexivity.
  - intros Hlate. apply Z.ltb_ge in Hlate. rewrite Hlate.
    now rewrite andb_false_r.
Qed.

(** With a hash function on which [compare] succeeds for the hashed
    plaintext and for no other, the candidate is accepted exactly when it
    is the plaintext that was set and the expiry has not been reached. *)
Corollary checkTemporaryPassword_accepts_the_plaintext
  (userId : Z) (plaintext candidate : string) (w : World) (later : Z) :
  (forall s p n, hash s p n <> EmptyString) ->
  (forall s p q n, compare q (hash s p n) = true <-> q = p) ->
  (exists r, In r (users w) /\ id r = userId) ->
  fst (checkTemporaryPassword userId candidate
         (with_now later (snd (setTemporaryPassword userId plaintext w))))
  = Resolved true
  <-> candidate = plaintext /\ later < now w + 10 * 60 * 1000.
Proof.
  intros Htruthy Hideal Hexists.
  rewrite (checkTemporaryPassword_value_after_set
             userId plaintext candidate w later Htruthy Hexists).
  rewrite <- Hideal with (s := salt w) (n := 10%nat).
  change (10 * 60 * 1000) with ten_minutes. split.
  - intros [= Hboth]. apply andb_prop in Hboth. destruct Hboth as [Hmatch Hlt].
    split; [exact Hmatch | now apply Z.ltb_lt].
  - intros [Hmatch Hlt]. apply Z.ltb_lt in Hlt. now rewrite Hmatch, Hlt.
Qed.

(** Where the row is there and the hash or the expiry is not, the check
    resolves to false. *)
Lemma checkTemporaryPassword_missing_resolves_false
  (userId : Z) (candidate : string) (w : World) (r : UserRow) :
  row_of userId w = Some r ->
  temp_password r = None \/ temp_password_expire_time r = None ->
  fst (checkTemporaryPassword userId candidate w) = Resolved false.
Proof.
  intros Hrow Hmissing. rewrite checkTemporaryPassword_by_row, Hrow.
  destruct Hmissing as [-> | ->]; [reflexivity |].
  now rewrite orb_true_r.
Qed.

(** Where there is no row for the id, the check is rejected. *)
Lemma checkTemporaryPassword_unknown_id (userId : Z) (candidate : string) (w : World) :
  (forall r, In r (users w) -> id r <> userId) ->
  checkTemporaryPassword userId candidate w
  = (Rejected TypeError, count_db_query w).
Proof.
  intros Hunknown. unfold checkTemporaryPassword. run.
  rewrite first_filter_none; [reflexivity |].
  intros r Hin. apply Z.eqb_neq. now apply Hunknown.
Qed.

(** C5, on an id without a row: no user of the sample world has id 9,
    so neither a hash nor an expiry is stored for it, and the check of a
    temporary password for it is rejected with a TypeError where the
    claim has it resolve to false. *)
Theorem checkTemporaryPassword_without_row_rejected (candidate : string) :
  row_of 9 Sample.world = None
  /\ fst (checkTemporaryPassword 9 candidate Sample.world) = Rejected TypeError
  /\ fst (checkTemporaryPassword 9 candidate Sample.world) <> Resolved false.
Proof.
  split; [reflexivity |].
  rewrite checkTemporaryPassword_by_row. cbn. split; [reflexivity | discriminate].
Qed.

(** C7: [changePassword] resolves after one update that leaves every
    column other than the password hash, of every row, as it was, the
    temporary password and its expiry among them; the rows of the
    given id hold the hash of the new password; the other tables, the
    clock and the gateway are untouched; and at every later time a check
    of the temporary password gives what it would have given without
    the change. *)
Theorem changePassword_changes_only_the_hash
  (userId : Z) (newPassword : string) (w : World) :
  let w' := snd (changePassword userId newPassword w) in
  fst (changePassword userId newPassword w) = Resolved tt
  /\ map (set_encrypted_password None) (users w')
     = map (set_encrypted_password None) (users w)
  /\ map temp_password (users w') = map temp_password (users w)
  /\ map temp_password_expire_time (users w')
     = map temp_password_expire_time (users w)
  /\ (forall r, In r (users w') -> id r = userId ->
                encrypted_password r = Some (hash (salt w) newPassword 10))
  /\ (forall r, In r (users w') -> id r <> userId -> In r (users w))
  /\ custom_weights w' = custom_weights w
  /\ company_partner_permissions w' = company_partner_permissions w
  /\ companies w' = companies w
  /\ now w' = now w
  /\ (forall candidate later,
        fst (checkTemporaryPassword userId candidate (with_now later w'))
        = fst (checkTemporaryPassword userId candidate (with_now later w))).
Proof.
  intros w'.
  set (h := hash (salt w) newPassword 10).
  assert (Husers :
    users w'
    = map (fun r => if id r =? userId then set_encrypted_password (Some h) r else r)
          (users w)) by reflexivity.
  split; [reflexivity |].
  split; [| split; [| split]].
  1-3: rewrite Husers, map_map; apply map_ext; intros r;
       destruct (id r =? userId); reflexivity.
  split.
  { intros r Hin Hid. rewrite Husers in Hin.
    apply in_map_iff in Hin. destruct Hin as [r0 [Hr0 _]].
    apply Z.eqb_eq in Hid. destruct (id r0 =? userId) eqn:Hid0; subst r.
    - reflexivity.
    - congruence. }
  split.
  { intros r Hin Hid. rewrite Husers in Hin.
    apply in_map_iff in Hin. destruct Hin as [r0 [Hr0 Hin0]].
    destruct (id r0 =? userId) eqn:Hid0; subst r.
    - apply Z.eqb_eq in Hid0. contradiction.
    - exact Hin0. }
  repeat (split; [reflexivity |]).
  intros candidate later. rewrite !checkTemporaryPassword_by_row.
  unfold row_of.
  change (users (with_now later w')) with (users w').
  change (users (with_now later w)) with (users w).
  rewrite Husers, filter_update by reflexivity. rewrite first_map.
  destruct (first (filter _ (users w))) as [r |]; reflexivity.
Qed.

End TemporaryPassword.

(** The statement above, run on the sample world. *)
Lemma checkTemporaryPassword_after_setTemporaryPassword_witness :
  fst (checkTemporaryPassword (H := Sample.marker_bcrypt) 1 "abc123"
         (with_now 2000
            (snd (setTemporaryPassword (H := Sample.marker_bcrypt) 1 "abc123"
                    Sample.world))))
  = Resolved true
  /\ fst (checkTemporaryPassword (H := Sample.marker_bcrypt) 1 "abc123"
            (with_now 601000
               (snd (setTemporaryPassword (H := Sample.marker_bcrypt) 1 "abc123"
                       Sample.world))))
     = Resolved false.
Proof.
  assert (Htruthy : forall (s p : string) (n : nat),
            hash (Bcrypt := Sample.marker_bcrypt) s p n <> EmptyString)
    by (intros s p n; discriminate).
  assert (Hexists : exists r, In r (users Sample.world) /\ id r = 1)
    by (eexists; split; [left; reflexivity | reflexivity]).
  split.
  - apply (checkTemporaryPassword_after_setTemporaryPassword
             (H := Sample.marker_bcrypt) 1 "abc123" "abc123" Sample.world 2000
             Htruthy Hexists).
    split; [reflexivity | cbn; lia].
  - apply (checkTemporaryPassword_after_setTemporaryPassword
             (H := Sample.marker_bcrypt) 1 "abc123" "abc123" Sample.world 601000
             Htruthy Hexists).
    cbn. lia.
Defined.

(** The statement above, run on the sample world. *)
Lemma changePassword_changes_only_the_hash_witness :
  encrypted_password
    (set_encrypted_password (Some "$fresh")
       (set_temp_password (Some "$abc123") (Some 601000)
          (Sample.user_row 1 "ann@example.com" (Some "$secret") None "active")))
  = Some "$fresh"
  /\ fst (checkTemporaryPassword (H := Sample.marker_bcrypt) 1 "abc123"
            (with_now 2000
               (snd (changePassword (H := Sample.marker_bcrypt) 1 "fresh"
                       Sample.world_with_temporary))))
     = fst (checkTemporaryPassword (H := Sample.marker_bcrypt) 1 "abc123"
              (with_now 2000 Sample.world_with_temporary)).
Proof.
  split.
  - apply (changePassword_changes_only_the_hash (H := Sample.marker_bcrypt)
             1 "fresh" Sample.world_with_temporary).
    + left. reflexivity.
    + reflexivity.
  - apply (changePassword_changes_only_the_hash (H := Sample.marker_bcrypt)
             1 "fresh" Sample.world_with_temporary).
Defined.

(** ** Account creation *)

(** The role [create] settles on. *)
Lemma acceptable_role (role_ : Js.value) :
  let acceptableRole :=
    Js.toString (if contains role_ roles then role_ else Js.Str "user") in
  In acceptableRole ["user"; "admin"; "superadmin"]
  /\ (forall s, role_ = Js.Str s -> In s ["user"; "admin"; "superadmin"] ->
                acceptableRole = s)
  /\ ((forall s, In s ["user"; "admin"; "superadmin"] -> role_ <> Js.Str s) ->
      acceptableRole = "user").
Proof.
  cbv zeta. destruct (contains role_ roles) eqn:Hknown.
  - apply contains_In in Hknown. destruct Hknown as [s [-> Hs]].
    repeat split.
    + exact Hs.
    + now intros s' [= ->] _.
    + intros Hnot. now destruct (Hnot s Hs).
  - repeat split.
    + now left.
    + intros s -> Hs.
      assert (Hyes : contains (Js.Str s) roles = true)
        by (apply contains_In; now exists s).
      congruence.
Qed.

(** C9: whatever role is asked for, [create] appends one row whose role
    is one of user, admin and superadmin: the role asked for when it is
    one of the three, and user for every other value; the account it
    resolves to is built from that row. *)
Theorem create_stores_a_known_role `{Bcrypt} {fold : StringCase}
  (email_ : string) (password : option string) (role_ : Js.value)
  (company created_by : option Z) (w : World) :
  exists row,
    users (snd (create email_ password role_ company created_by w))
    = (users w ++ [row])%list
    /\ fst (create email_ password role_ company created_by w)
       = Resolved (Some (toUser (returning_id_email_role_status row)))
    /\ In (role row) ["user"; "admin"; "superadmin"]
    /\ (forall s, role_ = Js.Str s -> In s ["user"; "admin"; "superadmin"] ->
                  role row = s)
    /\ ((forall s, In s ["user"; "admin"; "superadmin"] -> role_ <> Js.Str s) ->
        role row = "user").
Proof.
  pose proof (acceptable_role role_) as Hrole. cbv zeta in Hrole.
  unfold create. cbv zeta.
  set (acceptableRole :=
         Js.toString (if contains role_ roles then role_ else Js.Str "user")) in *.
  clearbody acceptableRole.
  destruct (Js.truthy (Js.of_text password));
    eexists; (split; [reflexivity |]); (split; [reflexivity |]); exact Hrole.
Qed.

(** The statement above, run on the sample world. *)
Lemma create_stores_a_known_role_witness :
  (exists row,
     users (snd (create (H := Sample.marker_bcrypt) (fold := Sample.ascii_case) "Eve@Example.com" (Some "pw")
                   (Js.Str "hacker") None None Sample.world))
     = (users Sample.world ++ [row])%list
     /\ role row = "user")
  /\ (exists row,
        users (snd (create (H := Sample.marker_bcrypt) (fold := Sample.ascii_case) "Eve@Example.com" (Some "pw")
                      (Js.Str "admin") None None Sample.world))
        = (users Sample.world ++ [row])%list
        /\ role row = "admin").
Proof.
  split.
  - destruct (create_stores_a_known_role (H := Sample.marker_bcrypt) (fold := Sample.ascii_case)
                "Eve@Example.com" (Some "pw") (Js.Str "hacker") None None
                Sample.world)
      as [row [Hrows [_ [_ [_ Hclamped]]]]].
    exists row. split; [exact Hrows |].
    apply Hclamped. intros s [<- | [<- | [<- | []]]]; discriminate.
  - destruct (create_stores_a_known_role (H := Sample.marker_bcrypt) (fold := Sample.ascii_case)
                "Eve@Example.com" (Some "pw") (Js.Str "admin") None None
                Sample.world)
      as [row [Hrows [_ [_ [Hkept _]]]]].
    exists row. split; [exact Hrows |].
    apply Hkept; [reflexivity | right; now left].
Defined.

(** ** Custom weights *)

Lemma update_none {A : Type} (p : A -> bool) (f : A -> A) (l : list A) :
  filter p l = [] -> map (fun r => if p r then f r else r) l = l.
Proof.
  induction l as [| r l IH]; cbn.
  - reflexivity.
  - destruct (p r); [discriminate |]. intros Hnone. now rewrite IH.
Qed.

(** Where no profile has the key, the update matches no row: the table
    is left as it was and no profile is created. *)
Lemma setUsersCustomWeights_absent
  (u : Z) (pt : string) (sa tr vi ec sp am : Z) (w : World) :
  profiles_of u pt w = [] ->
  fst (setUsersCustomWeights u pt sa tr vi ec sp am w) = Resolved (Updated [])
  /\ custom_weights (snd (setUsersCustomWeights u pt sa tr vi ec sp am w))
     = custom_weights w.
Proof.
  unfold profiles_of, setUsersCustomWeights. intros Hnone. run.
  rewrite Hnone. cbn. rewrite Hnone. split; [reflexivity |].
  now apply update_none.
Qed.

(** Where a profile has the key, a further row with the same key is
    inserted and the existing ones are left as they were. *)
Lemma setUsersCustomWeights_present
  (u : Z) (pt : string) (sa tr vi ec sp am : Z) (w : World) :
  profiles_of u pt w <> [] ->
  fst (setUsersCustomWeights u pt sa tr vi ec sp am w) = Resolved Inserted
  /\ profiles_of u pt (snd (setUsersCustomWeights u pt sa tr vi ec sp am w))
     = (profiles_of u pt w
        ++ [ {| user_id := u; property_type := pt; safety := sa; trnsprt := tr;
                vitalty := vi; economc := ec; sptl_dm := sp; amenity := am |} ])%list.
Proof.
  unfold profiles_of, setUsersCustomWeights. intros Hsome. run.
  destruct (filter _ (custom_weights w)) as [| r rows] eqn:Hrows; [congruence |].
  cbn. split; [reflexivity |].
  rewrite filter_app, Hrows. cbn. unfold same_key. cbn.
  now rewrite Z.eqb_refl, String.eqb_refl.
Qed.

(** C1, on both branches: in the sample world user 2 has no profile for
    offices and still has none after the call, and user 1 has one and has
    two after the call, the old one unchanged, where the claim has one
    profile for the key after either call. *)
Theorem setUsersCustomWeights_inserts_on_match_only :
  profiles_of 2 "office" Sample.world = []
  /\ profiles_of 2 "office"
       (snd (setUsersCustomWeights 2 "office" 1 2 3 4 5 6 Sample.world)) = []
  /\ profiles_of 1 "office" Sample.world = [ Sample.weight_row 1 "office" 10 ]
  /\ profiles_of 1 "office"
       (snd (setUsersCustomWeights 1 "office" 1 2 3 4 5 6 Sample.world))
     = [ Sample.weight_row 1 "office" 10;
         {| user_id := 1; property_type := "office"; safety := 1; trnsprt := 2;
            vitalty := 3; economc := 4; sptl_dm := 5; amenity := 6 |} ].
Proof.
  repeat split.
Qed.

(** ** Login types *)

Section LoginTypes.

Context `{Json} `{AsArray}.

Lemma includes_appended (l : list Js.value) (tag : string) :
  Js.includes (l ++ [Js.Str tag]) tag = true.
Proof.
  unfold Js.includes. rewrite existsb_app. cbn.
  now rewrite String.eqb_refl, orb_true_r.
Qed.

(** A login type the account already has: the account comes back as it
    was given and nothing is written. *)
Lemma updateUserLoginTypes_present
  (u : User.t) (loginType : string) (l : list Js.value) (w : World) :
  getUserLoginTypes (Some u) = Resolved l ->
  Js.includes l loginType = true ->
  updateUserLoginTypes (Some u) loginType w = (Resolved (Some u), w).
Proof.
  intros Hread Hin. unfold updateUserLoginTypes. rewrite Hread. run.
  now rewrite Hin.
Qed.

(** A login type the account does not have yet: it is appended after
    the ones read, the serialized list is written to the rows of the
    account in one update, and the account comes back holding the
    list. *)
Lemma updateUserLoginTypes_absent
  (u : User.t) (loginType : string) (l : list Js.value) (w : World) :
  getUserLoginTypes (Some u) = Resolved l ->
  Js.includes l loginType = false ->
  let l' := (l ++ [Js.Str loginType])%list in
  fst (updateUserLoginTypes (Some u) loginType w)
  = Resolved (Some (User.with_login_types (Js.Arr l') u))
  /\ users (snd (updateUserLoginTypes (Some u) loginType w))
     = map (fun r => if id r =? User.id u
                     then set_login_types (Some (JSON_stringify (Js.Arr l'))) r
                     else r)
           (users w)
  /\ db_queries (snd (updateUserLoginTypes (Some u) loginType w))
     = S (db_queries w).
Proof.
  intros Hread Hout. unfold updateUserLoginTypes. rewrite Hread. run.
  rewrite Hout. cbn. repeat split.
Qed.

(** An account read again from a row the update wrote already has the
    login type, provided the serialized list is a non-empty text that
    parses back to the list. *)
Lemma updateUserLoginTypes_read_again
  (r : UserRow) (loginType : string) (l : list Js.value) (w : World) :
  let l' := (l ++ [Js.Str loginType])%list in
  login_types r = Some (JSON_stringify (Js.Arr l')) ->
  JSON_stringify (Js.Arr l') <> EmptyString ->
  JSON_parse (JSON_stringify (Js.Arr l')) = Some (Js.Arr l') ->
  asArray (Js.Arr l') = l' ->
  updateUserLoginTypes (Some (toUser r)) loginType w
  = (Resolved (Some (toUser r)), w).
Proof.
  intros l' Hstored Htext Hparse Harray.
  apply updateUserLoginTypes_present with (l := l').
  - unfold getUserLoginTypes, toUser. cbn. rewrite Hstored. cbn.
    destruct (JSON_stringify (Js.Arr l')) eqn:Htxt; [congruence |].
    cbn. rewrite Hparse, Harray. reflexivity.
  - apply includes_appended.
Qed.

(** C8, on the account the function itself returns: for an account
    without login types and a tag that no JSON text can begin with (such
    as "password"), the first call resolves to the account holding the
    array of that one tag; given that account, whose login types do
    contain the tag, the second call is rejected with a SyntaxError,
    because the array is read as the text of its elements and parsed,
    where the claim has it return the account unchanged. *)
Theorem updateUserLoginTypes_returned_account_rejected
  (u : User.t) (loginType : string) (w : World) :
  (forall s, Js.json_start_ok s = false -> JSON_parse s = None) ->
  User.login_types u = Js.Null ->
  Js.json_start_ok loginType = false ->
  let u1 := User.with_login_types (Js.Arr [Js.Str loginType]) u in
  let w1 := snd (updateUserLoginTypes (Some u) loginType w) in
  fst (updateUserLoginTypes (Some u) loginType w) = Resolved (Some u1)
  /\ Js.includes [Js.Str loginType] loginType = true
  /\ updateUserLoginTypes (Some u1) loginType w1 = (Rejected SyntaxError, w1).
Proof.
  intros Hsyntax Hnone Hstart u1 w1.
  assert (Hread : getUserLoginTypes (Some u) = Resolved []).
  { unfold getUserLoginTypes. now rewrite Hnone. }
  destruct (updateUserLoginTypes_absent u loginType [] w Hread eq_refl)
    as [Hfirst _].
  split; [exact Hfirst |].
  split; [apply (includes_appended [] loginType) |].
  unfold updateUserLoginTypes, getUserLoginTypes. cbn.
  replace (match loginType with
           | EmptyString => loginType
           | String _ _ => loginType
           end) with loginType by (destruct loginType; reflexivity).
  rewrite (Hsyntax loginType Hstart). reflexivity.
Qed.

End LoginTypes.

(** The sample reader refuses every text that cannot begin a JSON
    value. *)
Lemma parse_string_array_start (s : string) :
  Js.json_start_ok s = false -> Sample.parse_string_array s = None.
Proof.
  destruct s as [| c rest]; [reflexivity |].
  unfold Sample.parse_string_array.
  destruct (Ascii.eqb c "[") eqn:Hc; [| reflexivity].
  apply Ascii.eqb_eq in Hc. subst c. discriminate.
Qed.

(** The statement above, run on the sample world. *)
Lemma updateUserLoginTypes_returned_account_rejected_witness :
  fst (updateUserLoginTypes (H := Sample.string_array_json)
         (H0 := Sample.wrap_as_array) (Some Sample.ann) "password" Sample.world)
  = Resolved (Some Sample.ann_with_password)
  /\ Js.includes [Js.Str "password"] "password" = true
  /\ fst (updateUserLoginTypes (H := Sample.string_array_json)
            (H0 := Sample.wrap_as_array) (Some Sample.ann_with_password) "password"
            (snd (updateUserLoginTypes (H := Sample.string_array_json)
                    (H0 := Sample.wrap_as_array) (Some Sample.ann) "password"
                    Sample.world)))
     = Rejected SyntaxError.
Proof.
  destruct (updateUserLoginTypes_returned_account_rejected
              (H := Sample.string_array_json) (H0 := Sample.wrap_as_array)
              Sample.ann "password" Sample.world parse_string_array_start
              eq_refl eq_refl)
    as [Hfirst [Hincluded Hsecond]].
  split; [exact Hfirst |]. split; [exact Hincluded |].
  unfold Sample.ann_with_password. now rewrite Hsecond.
Defined.

(** * Further properties *)

(** ** Lists of rows *)

Lemma filter_map_commute {A : Type} (p : A -> bool) (g : A -> A) (l : list A) :
  (forall r, p (g r) = p r) -> filter p (map g l) = map g (filter p l).
Proof.
  intros Hkeep. induction l as [| r l IH]; cbn.
  - reflexivity.
  - rewrite Hkeep. destruct (p r); cbn; now rewrite IH.
Qed.

Lemma filter_none {A : Type} (p : A -> bool) (l : list A) :
  (forall r, In r l -> p r = false) -> filter p l = [].
Proof.
  induction l as [| r l IH]; cbn; intros Hnone.
  - reflexivity.
  - rewrite (Hnone r) by now left. apply IH. intros r' Hin. apply Hnone. now right.
Qed.

Lemma filter_filter_other {A : Type} (p q : A -> bool) (l : list A) :
  (forall r, p r = true -> q r = false) ->
  filter p (filter (fun r => negb (q r)) l) = filter p l.
Proof.
  intros Hother. induction l as [| r l IH]; cbn.
  - reflexivity.
  - destruct (q r) eqn:Hq; cbn.
    + destruct (p r) eqn:Hp; [| exact IH].
      rewrite (Hother r Hp) in Hq. discriminate.
    + now rewrite IH.
Qed.

Lemma map_update_id {A : Type} (p : A -> bool) (f : A -> A) (l : list A) :
  (forall r, In r l -> p r = true -> f r = r) ->
  map (fun r => if p r then f r else r) l = l.
Proof.
  induction l as [| r l IH]; cbn; intros Hfix.
  - reflexivity.
  - rewrite IH by (intros r' Hin; apply Hfix; now right).
    destruct (p r) eqn:Hp; [| reflexivity].
    now rewrite Hfix by (auto).
Qed.

(** ** Login, by the row it reads *)

Section Login.

Context `{Bcrypt} {fold : StringCase}.

Lemma truthy_secret (password : string) :
  password <> EmptyString -> Js.truthy (Js.of_text (Some password)) = true.
Proof.
  destruct password; [congruence | reflexivity].
Qed.

(** The outcome of a login with a non-empty secret, read off the row
    found for the email and the reply of the gateway. *)
Lemma authenticate_by_row (email_ password : string) (w : World) :
  password <> EmptyString ->
  fst (authenticate email_ (Some password) w)
  = match account_of email_ w with
    | None => Rejected AccountNotFound
    | Some r =>
        match fst (getCompany (company_id r) w) with
        | Rejected x => Rejected x
        | Resolved company =>
            if negb (statusActive (status r)) then Rejected AccountDeactivated
            else if negb (term_valid company (now w)) then Rejected TenantTermExpired
            else if negb (Js.truthy (Js.of_text (encrypted_password r)))
            then Rejected InvalidCredential
            else if compare password (Js.toString (Js.of_text (encrypted_password r)))
            then Resolved (Authenticated (toUser r))
            else Rejected InvalidCredential
        end
    end.
Proof.
  intros Hsecret.
  unfold authenticate, account_of. rewrite (truthy_secret _ Hsecret). cbn [negb].
  unfold getCompany, isBlank. run.
  destruct (filter _ (users w)) as [| r rows]; cbn; [reflexivity |].
  destruct (company_id r) as [i |]; cbn.
  - destruct (gateway_up w); cbn; [| reflexivity].
    destruct (statusActive (status r)); cbn; [| reflexivity].
    destruct (List.find _ (companies w)) as [c |]; cbn.
    + destruct (now w <? end_date c); cbn; [| reflexivity].
      destruct (Js.truthy (Js.of_text (encrypted_password r))); cbn;
        [| reflexivity].
      destruct (compare _ _); reflexivity.
    + destruct (Js.truthy (Js.of_text (encrypted_password r))); cbn;
        [| reflexivity].
      destruct (compare _ _); reflexivity.
  - destruct (statusActive (status r)); cbn; [| reflexivity].
    destruct (Js.truthy (Js.of_text (encrypted_password r))); cbn;
      [| reflexivity].
    destruct (compare _ _); reflexivity.
Qed.

(** The reply of the gateway depends on the gateway alone. *)
Lemma getCompany_same_gateway (companyId : option Z) (w w' : World) :
  gateway_up w' = gateway_up w ->
  companies w' = companies w ->
  fst (getCompany companyId w') = fst (getCompany companyId w).
Proof.
  intros Hup Hdir. unfold getCompany, isBlank. run.
  destruct companyId as [i |]; cbn; [| reflexivity].
  rewrite Hup. destruct (gateway_up w); cbn; [| reflexivity].
  now rewrite Hdir.
Qed.

(** Case analysis of a login down to its last branch. *)
Ltac login_cases r w :=
  unfold getCompany, isBlank; run;
  destruct (filter _ (users w)) as [| r ?rows]; cbn; [| destruct (company_id r) as [?i |]; cbn;
    [ destruct (gateway_up w); cbn;
      [ destruct (statusActive (status r)); cbn;
        [ destruct (List.find _ (companies w)) as [?c |]; cbn;
          [ destruct (now w <? end_date _); cbn;
            [ destruct (Js.truthy (Js.of_text (encrypted_password r))); cbn;
              [ destruct (compare _ _); cbn | ] | ]
          | destruct (Js.truthy (Js.of_text (encrypted_password r))); cbn;
            [ destruct (compare _ _); cbn | ] ]
        | ]
      | ]
    | destruct (statusActive (status r)); cbn;
      [ destruct (Js.truthy (Js.of_text (encrypted_password r))); cbn;
        [ destruct (compare _ _); cbn | ]
      | ] ] ].

(** X1: a login never writes.  Whatever the email, the secret and the
    outcome, the three tables, the id sequence and the company directory
    are as before, at most one query was sent to the database and at
    most one call was made to the gateway. *)
Theorem authenticate_reads_only
  (email_ : string) (password : option string) (w : World) :
  users (snd (authenticate email_ password w)) = users w
  /\ custom_weights (snd (authenticate email_ password w)) = custom_weights w
  /\ company_partner_permissions (snd (authenticate email_ password w))
     = company_partner_permissions w
  /\ users_id_seq (snd (authenticate email_ password w)) = users_id_seq w
  /\ companies (snd (authenticate email_ password w)) = companies w
  /\ (db_queries (snd (authenticate email_ password w)) <= S (db_queries w))%nat
  /\ (gateway_calls (snd (authenticate email_ password w)) <= S (gateway_calls w))%nat.
Proof.
  unfold authenticate.
  destruct (negb (Js.truthy (Js.of_text password))).
  - cbn. repeat split; lia.
  - login_cases r w; repeat split; lia.
Qed.

(** X2: a login resolves to an account only on a match.  When
    [authenticate] resolves to an account, the secret was not empty, the
    account is the one built from the first row stored under the
    lower-cased email, that row passed the status check, it holds a
    non-empty hash, and [compare] accepted the secret against that
    hash. *)
Theorem authenticate_resolves_only_on_match
  (email_ : string) (password : option string) (w : World) (u : User.t) :
  fst (authenticate email_ password w) = Resolved (Authenticated u) ->
  exists p r h,
    password = Some p /\ p <> EmptyString
    /\ account_of email_ w = Some r /\ u = toUser r
    /\ statusActive (status r) = true
    /\ encrypted_password r = Some h /\ h <> EmptyString
    /\ compare p h = true.
Proof.
  destruct password as [p |]; [| discriminate].
  destruct p as [| c p]; [discriminate |].
  intros Hok. rewrite authenticate_by_row in Hok by discriminate.
  destruct (account_of email_ w) as [r |]; [| discriminate].
  destruct (fst (getCompany (company_id r) w)) as [company | x]; [| discriminate].
  destruct (statusActive (status r)) eqn:Hstatus; [| discriminate].
  destruct (term_valid company (now w)); [| discriminate].
  destruct (encrypted_password r) as [h |] eqn:Hhash; [| discriminate].
  destruct h as [| d h]; [discriminate |].
  cbn in Hok.
  destruct (compare (String c p) (String d h)) eqn:Hmatch; [| discriminate].
  injection Hok as <-.
  exists (String c p), r, (String d h).
  repeat split; try reflexivity; try discriminate; assumption.
Qed.

(** X3: for a non-empty secret, [authenticate] is rejected with
    "Username cannot be found" exactly when [findUserByEmail] resolves to
    no row for the same email. *)
Theorem authenticate_not_found_iff_no_row (email_ password : string) (w : World) :
  password <> EmptyString ->
  fst (authenticate email_ (Some password) w)
  = Rejected (Error "Username cannot be found")
  <-> fst (findUserByEmail email_ w) = Resolved None.
Proof.
  intros Hsecret.
  assert (Hfound : fst (findUserByEmail email_ w) = Resolved (account_of email_ w))
    by reflexivity.
  rewrite Hfound. unfold account_of.
  unfold authenticate. rewrite (truthy_secret _ Hsecret). cbn [negb].
  login_cases r w; split; intros Heq; try reflexivity; discriminate.
Qed.

(** The account a login finds after an update that keeps the emails. *)
Lemma account_of_update (email_ : string) (g : UserRow -> UserRow) (w w' : World) :
  (forall r, email (g r) = email r) ->
  users w' = map g (users w) ->
  account_of email_ w' = option_map g (account_of email_ w).
Proof.
  intros Hemail Husers. unfold account_of. rewrite Husers.
  rewrite filter_map_commute by (intros r; now rewrite Hemail).
  apply first_map.
Qed.

(** X4: a temporary password opens no login.  After
    [setTemporaryPassword], for whatever id and plaintext, every login
    has the outcome it had before. *)
Theorem authenticate_ignores_temporary_password
  (email_ : string) (password : option string)
  (userId : Z) (tempPassword : string) (w : World) :
  fst (authenticate email_ password (snd (setTemporaryPassword userId tempPassword w)))
  = fst (authenticate email_ password w).
Proof.
  destruct password as [p |]; [| reflexivity].
  destruct p as [| c p]; [reflexivity |].
  rewrite !authenticate_by_row by discriminate.
  set (g := fun r => if id r =? userId
                     then set_temp_password (Some (hash (salt w) tempPassword 10))
                                            (Some (now w + ten_minutes)) r
                     else r).
  rewrite (account_of_update email_ g w); try reflexivity.
  2: { intros r. unfold g. destruct (id r =? userId); reflexivity. }
  destruct (account_of email_ w) as [r |]; [| reflexivity].
  cbn [option_map].
  assert (Hsame : company_id (g r) = company_id r /\ status (g r) = status r
                  /\ encrypted_password (g r) = encrypted_password r
                  /\ toUser (g r) = toUser r).
  { unfold g. destruct (id r =? userId); repeat split. }
  destruct Hsame as [-> [-> [-> ->]]].
  rewrite (getCompany_same_gateway (company_id r) w) by reflexivity.
  reflexivity.
Qed.

(** X5: after [changePassword] for an account that could log in, a
    login with a non-empty secret resolves to that same account exactly
    when [compare] accepts the secret against the hash of the new
    password, and is rejected with "Invalid password" otherwise; what the
    old password was no longer matters. *)
Theorem authenticate_after_changePassword
  (email_ old candidate newPassword : string) (w : World) (u : User.t) :
  (forall s p n, hash s p n <> EmptyString) ->
  candidate <> EmptyString ->
  fst (authenticate email_ (Some old) w) = Resolved (Authenticated u) ->
  fst (authenticate email_ (Some candidate)
         (snd (changePassword (User.id u) newPassword w)))
  = if compare candidate (hash (salt w) newPassword 10)
    then Resolved (Authenticated u)
    else Rejected InvalidCredential.
Proof.
  intros Htruthy Hcandidate Hbefore.
  destruct old as [| c old]; [discriminate |].
  rewrite authenticate_by_row in Hbefore by discriminate.
  rewrite authenticate_by_row by assumption.
  set (h := hash (salt w) newPassword 10).
  set (g := fun r => if id r =? User.id u
                     then set_encrypted_password (Some h) r else r).
  rewrite (account_of_update email_ g w); try reflexivity.
  2: { intros r. unfold g. destruct (id r =? User.id u); reflexivity. }
  destruct (account_of email_ w) as [r |]; [| discriminate].
  cbn [option_map].
  assert (Hsame : company_id (g r) = company_id r /\ status (g r) = status r
                  /\ toUser (g r) = toUser r).
  { unfold g. destruct (id r =? User.id u); repeat split. }
  destruct Hsame as [-> [-> ->]].
  rewrite (getCompany_same_gateway (company_id r) w) by reflexivity.
  destruct (fst (getCompany (company_id r) w)) as [company | x]; [| discriminate].
  destruct (negb (statusActive (status r))); [discriminate |].
  change (now (snd (changePassword (User.id u) newPassword w))) with (now w).
  destruct (negb (term_valid company (now w))); [discriminate |].
  destruct (negb (Js.truthy (Js.of_text (encrypted_password r)))); [discriminate |].
  destruct (compare _ _) in Hbefore; [| discriminate].
  injection Hbefore as <-.
  unfold g. cbn [toUser User.id]. rewrite Z.eqb_refl. cbn.
  destruct h eqn:Hh.
  - exfalso. now apply (Htruthy (salt w) newPassword 10%nat).
  - reflexivity.
Qed.

End Login.

(** The statement above, run on the sample world. *)
Lemma authenticate_resolves_only_on_match_witness :
  exists p r h,
    Some "secret" = Some p /\ p <> EmptyString
    /\ account_of (fold := Sample.ascii_case) "Ann@Example.com" Sample.world = Some r
    /\ Sample.ann = toUser r
    /\ statusActive (status r) = true
    /\ encrypted_password r = Some h /\ h <> EmptyString
    /\ compare (Bcrypt := Sample.marker_bcrypt) p h = true.
Proof.
  apply (authenticate_resolves_only_on_match (H := Sample.marker_bcrypt) (fold := Sample.ascii_case)
           "Ann@Example.com" (Some "secret") Sample.world Sample.ann).
  reflexivity.
Defined.

(** The statement above, run on the sample world. *)
Lemma authenticate_not_found_iff_no_row_witness :
  fst (authenticate (H := Sample.marker_bcrypt) (fold := Sample.ascii_case) "zoe@example.com" (Some "secret")
         Sample.world)
  = Rejected (Error "Username cannot be found").
Proof.
  apply (authenticate_not_found_iff_no_row (H := Sample.marker_bcrypt) (fold := Sample.ascii_case)
           "zoe@example.com" "secret" Sample.world).
  - discriminate.
  - reflexivity.
Defined.

(** The statement above, run on the sample world. *)
Lemma authenticate_after_changePassword_witness :
  fst (authenticate (H := Sample.marker_bcrypt) (fold := Sample.ascii_case) "ann@example.com" (Some "fresh")
         (snd (changePassword (H := Sample.marker_bcrypt) 1 "fresh" Sample.world)))
  = Resolved (Authenticated Sample.ann)
  /\ fst (authenticate (H := Sample.marker_bcrypt) (fold := Sample.ascii_case) "ann@example.com" (Some "secret")
            (snd (changePassword (H := Sample.marker_bcrypt) 1 "fresh" Sample.world)))
     = Rejected InvalidCredential.
Proof.
  assert (Htruthy : forall (s p : string) (n : nat),
            hash (Bcrypt := Sample.marker_bcrypt) s p n <> EmptyString)
    by (intros s p n; discriminate).
  split.
  - exact (authenticate_after_changePassword (H := Sample.marker_bcrypt) (fold := Sample.ascii_case)
             "ann@example.com" "secret" "fresh" "fresh" Sample.world Sample.ann
             Htruthy ltac:(discriminate) eq_refl).
  - exact (authenticate_after_changePassword (H := Sample.marker_bcrypt) (fold := Sample.ascii_case)
             "ann@example.com" "secret" "secret" "fresh" Sample.world Sample.ann
             Htruthy ltac:(discriminate) eq_refl).
Defined.

(** ** Accounts: creation, lookup and removal *)

Section Accounts.

Context `{Bcrypt} {fold : StringCase}.

(** What [find] resolves to, by the row it reads. *)
Lemma find_by_row (id_ : Z) (w : World) :
  fst (find id_ w)
  = match row_of id_ w with
    | Some r => Resolved (Found (toUser r))
    | None => Resolved NotFound
    end.
Proof.
  unfold find, row_of. run.
  destruct (filter _ (users w)); reflexivity.
Qed.

(** The row [create] appends. *)
Lemma create_appends (email_ : string) (password : option string)
  (role_ : Js.value) (company created_by : option Z) (w : World) :
  exists row,
    users (snd (create email_ password role_ company created_by w))
    = (users w ++ [row])%list
    /\ fst (create email_ password role_ company created_by w)
       = Resolved (Some (toUser (returning_id_email_role_status row)))
    /\ id row = users_id_seq w
    /\ email row = toLowerCase email_
    /\ company_id row = company
    /\ encrypted_password row = created_hash password w.
Proof.
  unfold create, created_hash. run.
  destruct (Js.truthy (Js.of_text password)); cbn;
    eexists; repeat split.
Qed.

(** X6: an account is created with the secret given and no other.  In
    a world that has no row under the email, once [create] has run, a
    login under any case variant of the email resolves to an account only
    if a non-empty secret was given to [create] and [compare] accepts the
    candidate against its hash; an account created without a secret
    cannot log in. *)
Theorem authenticate_after_create
  (email_ variant : string) (password : option string) (candidate : string)
  (role_ : Js.value) (company created_by : option Z) (w : World) (u : User.t) :
  (forall r, In r (users w) -> email r <> toLowerCase email_) ->
  toLowerCase variant = toLowerCase email_ ->
  fst (authenticate variant (Some candidate)
         (snd (create email_ password role_ company created_by w)))
  = Resolved (Authenticated u) ->
  exists secret,
    password = Some secret /\ secret <> EmptyString
    /\ compare candidate (hash (salt w) secret 10) = true.
Proof.
  intros Hfresh Hvariant Hok.
  destruct candidate as [| c candidate]; [discriminate |].
  rewrite authenticate_by_row in Hok by discriminate.
  destruct (create_appends email_ password role_ company created_by w)
    as [row [Husers [_ [_ [Hemail [_ Hhash]]]]]].
  unfold account_of in Hok. rewrite Husers, Hvariant, filter_app in Hok.
  rewrite filter_none in Hok.
  2: { intros r Hin. apply String.eqb_neq. now apply Hfresh. }
  cbn in Hok. rewrite Hemail, String.eqb_refl in Hok. cbn in Hok.
  destruct (fst (getCompany (company_id row) _)); [| discriminate].
  destruct (negb (statusActive (status row))); [discriminate |].
  destruct (negb (term_valid _ _)); [discriminate |].
  rewrite Hhash in Hok. unfold created_hash in Hok.
  destruct password as [secret |]; [| discriminate].
  destruct secret as [| d secret]; [discriminate |].
  cbn in Hok.
  destruct (negb _); [discriminate |].
  destruct (compare _ _) eqn:Hmatch in Hok; [| discriminate].
  exists (String d secret). repeat split; [discriminate |].
  destruct (hash (salt w) (String d secret) 10); exact Hmatch.
Qed.

(** X7: an account can be found by the id [create] returns.  Where no
    row has the next id of the sequence yet, [create] resolves to an
    account and [find] on its id resolves to an account with the same id,
    email (the lower-cased one), role and status, which also shows the
    company given to [create]. *)
Theorem find_after_create
  (email_ : string) (password : option string)
  (role_ : Js.value) (company created_by : option Z) (w : World) :
  (forall r, In r (users w) -> id r <> users_id_seq w) ->
  exists created stored,
    fst (create email_ password role_ company created_by w)
    = Resolved (Some created)
    /\ fst (find (User.id created)
              (snd (create email_ password role_ company created_by w)))
       = Resolved (Found stored)
    /\ User.id stored = User.id created
    /\ User.email created = toLowerCase email_
    /\ User.email stored = toLowerCase email_
    /\ User.role stored = User.role created
    /\ User.status stored = User.status created
    /\ User.company_id stored = company.
Proof.
  intros Hfresh.
  destruct (create_appends email_ password role_ company created_by w)
    as [row [Husers [Hcreated [Hid [Hemail [Hcompany _]]]]]].
  exists (toUser (returning_id_email_role_status row)), (toUser row).
  split; [exact Hcreated |].
  rewrite find_by_row. unfold row_of. rewrite Husers, filter_app.
  rewrite filter_none.
  2: { intros r Hin. apply Z.eqb_neq. cbn. rewrite Hid. now apply Hfresh. }
  cbn. rewrite Z.eqb_refl. cbn.
  repeat split; assumption.
Qed.

(** X8: [remove] deletes the rows of the id and nothing else.  After
    it, [find] on that id resolves to [false], [find] on any other id
    resolves to what it did before, and the weighting profiles of the
    removed user are still stored. *)
Theorem find_after_remove (userId : Z) (w : World) :
  fst (find userId (snd (remove userId w))) = Resolved NotFound
  /\ (forall other, other <> userId ->
        fst (find other (snd (remove userId w))) = fst (find other w))
  /\ weights_of userId (snd (remove userId w)) = weights_of userId w.
Proof.
  split; [| split].
  - rewrite find_by_row. unfold row_of, remove. run.
    rewrite first_filter_none; [reflexivity |].
    intros r Hin. apply filter_In in Hin. destruct Hin as [_ Hkept].
    now apply negb_true_iff in Hkept.
  - intros other Hother. rewrite !find_by_row. unfold row_of, remove. run.
    rewrite filter_filter_other; [reflexivity |].
    intros r Hr. apply Z.eqb_eq in Hr. apply Z.eqb_neq. congruence.
  - reflexivity.
Qed.

(** X9: a removed account cannot log in.  When every row stored under
    the email has the id removed, a login with a non-empty secret is
    rejected afterwards with "Username cannot be found". *)
Theorem authenticate_after_remove
  (email_ password : string) (userId : Z) (w : World) :
  password <> EmptyString ->
  (forall r, In r (users w) -> email r = toLowerCase email_ -> id r = userId) ->
  fst (authenticate email_ (Some password) (snd (remove userId w)))
  = Rejected (Error "Username cannot be found").
Proof.
  intros Hsecret Honly. rewrite authenticate_by_row by assumption.
  unfold account_of, remove. run.
  rewrite first_filter_none; [reflexivity |].
  intros r Hin. apply filter_In in Hin. destruct Hin as [Hin Hkept].
  apply negb_true_iff, Z.eqb_neq in Hkept.
  apply String.eqb_neq. intros Hmail. now apply Hkept, Honly.
Qed.

End Accounts.

(** The statement above, run on the sample world. *)
Lemma authenticate_after_create_witness :
  exists secret,
    Some "pw" = Some secret /\ secret <> EmptyString
    /\ compare (Bcrypt := Sample.marker_bcrypt) "pw"
         (hash (Bcrypt := Sample.marker_bcrypt) (salt Sample.world) secret 10)
       = true.
Proof.
  apply (authenticate_after_create (H := Sample.marker_bcrypt) (fold := Sample.ascii_case)
           "Eve@Example.com" "EVE@example.com" (Some "pw") "pw"
           (Js.Str "admin") None None Sample.world
           {| User.id := 5;
              User.email := "eve@example.com";
              User.termsAcceptedAt := None;
              User.role := "admin";
              User.company_id := None;
              User.status := "active";
              User.notice_email_sent := Some false;
              User.login_types := Js.Null |}).
  - cbn. intros r [<- | [<- | [<- | [<- | []]]]]; discriminate.
  - reflexivity.
  - reflexivity.
Defined.

(** The statement above, run on the sample world. *)
Lemma find_after_create_witness :
  exists created stored,
    fst (create (H := Sample.marker_bcrypt) (fold := Sample.ascii_case) "Eve@Example.com" (Some "pw")
           (Js.Str "admin") (Some 8) None Sample.world)
    = Resolved (Some created)
    /\ fst (find (User.id created)
              (snd (create (H := Sample.marker_bcrypt) (fold := Sample.ascii_case) "Eve@Example.com" (Some "pw")
                      (Js.Str "admin") (Some 8) None Sample.world)))
       = Resolved (Found stored)
    /\ User.id stored = User.id created
    /\ User.email created = "eve@example.com"
    /\ User.email stored = "eve@example.com"
    /\ User.role stored = User.role created
    /\ User.status stored = User.status created
    /\ User.company_id stored = Some 8.
Proof.
  apply (find_after_create (H := Sample.marker_bcrypt) (fold := Sample.ascii_case) "Eve@Example.com"
           (Some "pw") (Js.Str "admin") (Some 8) None Sample.world).
  cbn. intros r [<- | [<- | [<- | [<- | []]]]]; discriminate.
Defined.

(** The statement above, run on the sample world. *)
Lemma find_after_remove_witness :
  fst (find 2 (snd (remove 1 Sample.world))) = fst (find 2 Sample.world).
Proof.
  apply (find_after_remove 1 Sample.world). discriminate.
Defined.

(** The statement above, run on the sample world. *)
Lemma authenticate_after_remove_witness :
  fst (authenticate (H := Sample.marker_bcrypt) (fold := Sample.ascii_case) "ann@example.com" (Some "secret")
         (snd (remove 1 Sample.world)))
  = Rejected (Error "Username cannot be found").
Proof.
  apply (authenticate_after_remove (H := Sample.marker_bcrypt) (fold := Sample.ascii_case)
           "ann@example.com" "secret" 1 Sample.world).
  - discriminate.
  - cbn. intros r [<- | [<- | [<- | [<- | []]]]]; cbn; intros Hmail;
      solve [reflexivity | discriminate].
Defined.

(** ** Status, terms of service and notices *)

Lemma set_status_same (r : UserRow) (st : string) :
  status r = st -> set_status st r = r.
Proof.
  intros <-. destruct r. reflexivity.
Qed.

(** X10: [activate] undoes [deactivate].  Deactivating and then
    activating an id leaves the table that activating alone leaves, which
    is the table as it was when the rows of the id had status active;
    [deactivate] itself changes no column but the status, and gives
    every row of the id status inactive. *)
Theorem activate_after_deactivate (userId : Z) (w : World) :
  users (snd (activate userId (snd (deactivate userId w))))
  = users (snd (activate userId w))
  /\ ((forall r, In r (users w) -> id r = userId -> status r = "active") ->
      users (snd (activate userId (snd (deactivate userId w)))) = users w)
  /\ map (set_status EmptyString) (users (snd (deactivate userId w)))
     = map (set_status EmptyString) (users w)
  /\ (forall r, In r (users (snd (deactivate userId w))) -> id r = userId ->
                status r = "inactive").
Proof.
  assert (Hboth :
    users (snd (activate userId (snd (deactivate userId w))))
    = users (snd (activate userId w))).
  { unfold activate, deactivate. run. rewrite map_map. apply map_ext.
    intros r. destruct (id r =? userId) eqn:Hid; cbn; now rewrite Hid. }
  split; [exact Hboth |]. split; [| split].
  - intros Hactive. rewrite Hboth. unfold activate. run.
    apply map_update_id. intros r Hin Hid.
    apply set_status_same, Hactive; [exact Hin | now apply Z.eqb_eq].
  - unfold deactivate. run. rewrite map_map. apply map_ext.
    intros r. destruct (id r =? userId); reflexivity.
  - unfold deactivate. run. intros r Hin Hid.
    apply in_map_iff in Hin. destruct Hin as [r0 [<- _]].
    destruct (id r0 =? userId) eqn:Hid0; [reflexivity |].
    apply Z.eqb_neq in Hid0. contradiction.
Qed.

(** The statement above, run on the sample world. *)
Lemma activate_after_deactivate_witness :
  users (snd (activate 1 (snd (deactivate 1 Sample.world)))) = users Sample.world.
Proof.
  apply (activate_after_deactivate 1 Sample.world).
  cbn. intros r [<- | [<- | [<- | [<- | []]]]]; cbn; intros Hid;
    solve [reflexivity | discriminate].
Defined.

(** The listing of active users after a status update of one id. *)
Lemma listing_after_deactivate (companyId userId : Z) (l : list UserRow) :
  map listed_columns
    (filter (fun r => of_company companyId r && String.eqb (status r) "active")
       (map (fun r => if id r =? userId then set_status "inactive" r else r) l))
  = filter (fun r => negb (id r =? userId))
      (map listed_columns
         (filter (fun r => of_company companyId r && String.eqb (status r) "active")
            l)).
Proof.
  induction l as [| r l IH]; cbn; [reflexivity |].
  destruct (id r =? userId) eqn:Hid.
  - unfold of_company at 1. cbn. rewrite andb_false_r.
    destruct (of_company companyId r && String.eqb (status r) "active"); cbn.
    + rewrite Hid. cbn. exact IH.
    + exact IH.
  - destruct (of_company companyId r && String.eqb (status r) "active"); cbn.
    + rewrite Hid. cbn. now rewrite IH.
    + exact IH.
Qed.

(** X11: a deactivated user leaves the listing of active users.  After
    [deactivate], [allActiveUsersOfCompany] resolves, for every company,
    to the rows it listed before without those of the deactivated id; and
    every row it ever lists has status active. *)
Theorem allActiveUsersOfCompany_after_deactivate (companyId userId : Z) (w : World) :
  (exists before,
     fst (allActiveUsersOfCompany companyId w) = Resolved before
     /\ fst (allActiveUsersOfCompany companyId (snd (deactivate userId w)))
        = Resolved (filter (fun r => negb (id r =? userId)) before))
  /\ (forall listed r,
        fst (allActiveUsersOfCompany companyId w) = Resolved listed ->
        In r listed -> status r = "active").
Proof.
  split.
  - eexists. split; [reflexivity |].
    unfold allActiveUsersOfCompany, deactivate. run.
    now rewrite listing_after_deactivate.
  - unfold allActiveUsersOfCompany. run. intros listed r [= <-] Hin.
    apply in_map_iff in Hin. destruct Hin as [r0 [<- Hin]].
    apply filter_In in Hin. destruct Hin as [_ Hactive].
    apply andb_prop in Hactive. destruct Hactive as [_ Hactive].
    now apply String.eqb_eq in Hactive.
Qed.

(** The statement above, run on the sample world. *)
Lemma allActiveUsersOfCompany_after_deactivate_witness :
  status (listed_columns
            (Sample.user_row 3 "cyd@example.com" (Some "$secret") (Some 7) "active"))
  = "active".
Proof.
  apply (proj2 (allActiveUsersOfCompany_after_deactivate 7 1 Sample.world)
           _ _ eq_refl).
  left. reflexivity.
Defined.

Section StatusAndLogin.

Context `{Bcrypt} {fold : StringCase}.

(** A login depends on the users table, the gateway and the clock, and
    on nothing else of the world. *)
Lemma authenticate_same_world
  (email_ : string) (password : option string) (w w' : World) :
  users w' = users w ->
  gateway_up w' = gateway_up w ->
  companies w' = companies w ->
  now w' = now w ->
  fst (authenticate email_ password w') = fst (authenticate email_ password w).
Proof.
  intros Husers Hup Hdir Hnow.
  destruct password as [p |]; [| reflexivity].
  destruct p as [| c p]; [reflexivity |].
  rewrite !authenticate_by_row by discriminate.
  unfold account_of. rewrite Husers, Hnow.
  destruct (first (filter _ (users w))) as [r |]; [| reflexivity].
  now rewrite (getCompany_same_gateway (company_id r) w w' Hup Hdir).
Qed.

(** X12: a deactivated account cannot log in until it is activated.
    After [deactivate] of the id of the account a login finds, and when
    the lookup of its company succeeds, a login with a non-empty secret is
    rejected with "Your accout has been deactivated", whatever the
    secret; and after [activate] of an account that was active before,
    every login has the outcome it had at the start. *)
Theorem authenticate_after_deactivate
  (email_ password : string) (w : World) (r : UserRow) (company : option Company) :
  password <> EmptyString ->
  account_of email_ w = Some r ->
  fst (getCompany (company_id r) w) = Resolved company ->
  fst (authenticate email_ (Some password) (snd (deactivate (id r) w)))
  = Rejected (Error "Your accout has been deactivated")
  /\ ((forall r', In r' (users w) -> id r' = id r -> status r' = "active") ->
      forall any,
        fst (authenticate email_ any
               (snd (activate (id r) (snd (deactivate (id r) w)))))
        = fst (authenticate email_ any w)).
Proof.
  intros Hsecret Hfound Hlookup. split.
  - rewrite authenticate_by_row by assumption.
    set (g := fun r' => if id r' =? id r then set_status "inactive" r' else r').
    rewrite (account_of_update email_ g w); try reflexivity.
    2: { intros r'. unfold g. destruct (id r' =? id r); reflexivity. }
    rewrite Hfound. cbn [option_map]. unfold g. rewrite Z.eqb_refl. cbn.
    rewrite (getCompany_same_gateway (company_id r) w) by reflexivity.
    now rewrite Hlookup.
  - intros Hactive any. apply authenticate_same_world; try reflexivity.
    unfold activate, deactivate. run. rewrite map_map.
    transitivity (map (fun r' : UserRow => r') (users w)); [| apply map_id].
    apply map_ext_in. intros r' Hin.
    destruct (id r' =? id r) eqn:Hid'; cbn; rewrite ?Hid'.
    + change (set_status "active" r' = r').
      apply set_status_same, Hactive; [exact Hin | now apply Z.eqb_eq].
    + reflexivity.
Qed.

End StatusAndLogin.

(** The statement above, run on the sample world. *)
Lemma authenticate_after_deactivate_witness :
  fst (authenticate (H := Sample.marker_bcrypt) (fold := Sample.ascii_case) "ann@example.com" (Some "secret")
         (snd (deactivate 1 Sample.world)))
  = Rejected (Error "Your accout has been deactivated")
  /\ fst (authenticate (H := Sample.marker_bcrypt) (fold := Sample.ascii_case) "ann@example.com" (Some "secret")
            (snd (activate 1 (snd (deactivate 1 Sample.world)))))
     = Resolved (Authenticated Sample.ann).
Proof.
  destruct (authenticate_after_deactivate (H := Sample.marker_bcrypt) (fold := Sample.ascii_case)
              "ann@example.com" "secret" Sample.world
              (Sample.user_row 1 "ann@example.com" (Some "$secret") None "active")
              None ltac:(discriminate) eq_refl eq_refl)
    as [Hrejected Hrestored].
  split; [exact Hrejected |].
  etransitivity; [| reflexivity].
  apply (Hrestored
           ltac:(cbn; intros r [<- | [<- | [<- | [<- | []]]]]; cbn; intros Hid;
                 solve [reflexivity | discriminate])
           (Some "secret")).
Defined.

(** X13: the last acceptance of the terms wins.  For an existing id,
    whatever was recorded before, after [acceptTermsOfService] the
    account [find] resolves to shows the time of this call as its
    acceptance time; no column but that one changes, in any row. *)
Theorem acceptTermsOfService_last_call_wins (userId : Z) (w : World) :
  (exists r, In r (users w) /\ id r = userId) ->
  (exists u,
     fst (find userId (snd (acceptTermsOfService userId w))) = Resolved (Found u)
     /\ User.termsAcceptedAt u = Some (now w))
  /\ map (set_terms_accepted_at None) (users (snd (acceptTermsOfService userId w)))
     = map (set_terms_accepted_at None) (users w).
Proof.
  intros Hexists. split.
  - rewrite find_by_row. unfold row_of, acceptTermsOfService. run.
    rewrite filter_update by reflexivity. rewrite first_map.
    destruct (first_filter_some (fun r => id r =? userId) (users w))
      as [r [Hr _]].
    { destruct Hexists as [r [Hin Hid]]. exists r. split; [exact Hin |].
      now apply Z.eqb_eq. }
    rewrite Hr. cbn. eexists. split; reflexivity.
  - unfold acceptTermsOfService. run. rewrite map_map. apply map_ext.
    intros r. destruct (id r =? userId); reflexivity.
Qed.

(** The statement above, run on the sample world, for a second
    acceptance at a later time. *)
Lemma acceptTermsOfService_last_call_wins_witness :
  exists u,
    fst (find 1 (snd (acceptTermsOfService 1
                        (with_now 3000 (snd (acceptTermsOfService 1 Sample.world))))))
    = Resolved (Found u)
    /\ User.termsAcceptedAt u = Some 3000.
Proof.
  apply (acceptTermsOfService_last_call_wins 1
           (with_now 3000 (snd (acceptTermsOfService 1 Sample.world)))).
  eexists. split; [left; reflexivity | reflexivity].
Defined.

Section UnknownId.

Context `{Bcrypt}.

(** X14: the updates by id do not check that the id exists.  Where no
    row has the id, [deactivate], [activate], [updateNoticeEmailSent],
    [acceptTermsOfService], [remove], [changePassword] and
    [setTemporaryPassword] all resolve without an error and leave the
    users table as it was. *)
Theorem updates_of_unknown_id_change_nothing
  (userId : Z) (text : string) (w : World) :
  (forall r, In r (users w) -> id r <> userId) ->
  deactivate userId w = (Resolved tt, count_db_query w)
  /\ activate userId w = (Resolved tt, count_db_query w)
  /\ updateNoticeEmailSent userId w = (Resolved tt, count_db_query w)
  /\ acceptTermsOfService userId w = (Resolved tt, count_db_query w)
  /\ remove userId w = (Resolved tt, count_db_query w)
  /\ changePassword userId text w = (Resolved tt, count_db_query w)
  /\ setTemporaryPassword userId text w = (Resolved tt, count_db_query w).
Proof.
  intros Hunknown.
  assert (Hupdate : forall f : UserRow -> UserRow,
            map (fun r => if id r =? userId then f r else r) (users w) = users w).
  { intros f. apply update_none. apply filter_none.
    intros r Hin. apply Z.eqb_neq. now apply Hunknown. }
  assert (Hdel : filter (fun r => negb (id r =? userId)) (users w) = users w).
  { apply forallb_filter_id. apply forallb_forall. intros r Hin.
    apply negb_true_iff, Z.eqb_neq. now apply Hunknown. }
  assert (Hsame : forall us, us = users w -> with_users us (count_db_query w)
                                           = count_db_query w).
  { intros us ->. destruct w. reflexivity. }
  unfold deactivate, activate, updateNoticeEmailSent, acceptTermsOfService,
    remove, changePassword, setTemporaryPassword. run.
  rewrite !Hupdate, Hdel. rewrite (Hsame (users w) eq_refl).
  repeat split.
Qed.

End UnknownId.

(** The statement above, run on the sample world. *)
Lemma updates_of_unknown_id_change_nothing_witness :
  users (snd (deactivate 9 Sample.world)) = users Sample.world
  /\ users (snd (setTemporaryPassword (H := Sample.marker_bcrypt) 9 "abc123"
                   Sample.world))
     = users Sample.world.
Proof.
  assert (Hunknown : forall r, In r (users Sample.world) -> id r <> 9).
  { cbn. intros r [<- | [<- | [<- | [<- | []]]]]; discriminate. }
  split.
  - now rewrite (proj1 (updates_of_unknown_id_change_nothing
                          (H := Sample.marker_bcrypt) 9 "abc123" Sample.world
                          Hunknown)).
  - destruct (updates_of_unknown_id_change_nothing
                (H := Sample.marker_bcrypt) 9 "abc123" Sample.world Hunknown)
      as [_ [_ [_ [_ [_ [_ Hset]]]]]].
    now rewrite Hset.
Defined.

(** ** Custom weights, as stored *)

(** The table after [setUsersCustomWeights]: the table before, followed
    by the new row when the key already had a profile. *)
Lemma setUsersCustomWeights_table
  (u : Z) (pt : string) (sa tr vi ec sp am : Z) (w : World) :
  custom_weights (snd (setUsersCustomWeights u pt sa tr vi ec sp am w))
  = (custom_weights w
     ++ match profiles_of u pt w with
        | [] => []
        | _ :: _ =>
            [ {| user_id := u; property_type := pt; safety := sa; trnsprt := tr;
                 vitalty := vi; economc := ec; sptl_dm := sp; amenity := am |} ]
        end)%list.
Proof.
  unfold profiles_of, setUsersCustomWeights. run.
  destruct (filter _ (custom_weights w)) as [| r rows] eqn:Hrows; cbn.
  - rewrite app_nil_r. now apply update_none.
  - reflexivity.
Qed.

(** X15: [setUsersCustomWeights] never changes a stored profile.  The
    table after the call is the table before it, row for row, followed
    by at most one new row, which has the key and the weights of the
    call; the users table is untouched. *)
Theorem setUsersCustomWeights_never_overwrites
  (u : Z) (pt : string) (sa tr vi ec sp am : Z) (w : World) :
  exists added,
    custom_weights (snd (setUsersCustomWeights u pt sa tr vi ec sp am w))
    = (custom_weights w ++ added)%list
    /\ (List.length added <= 1)%nat
    /\ (forall r, In r added ->
          r = {| user_id := u; property_type := pt; safety := sa; trnsprt := tr;
                 vitalty := vi; economc := ec; sptl_dm := sp; amenity := am |})
    /\ users (snd (setUsersCustomWeights u pt sa tr vi ec sp am w)) = users w.
Proof.
  eexists. split; [apply setUsersCustomWeights_table |].
  split; [| split].
  - destruct (profiles_of u pt w); cbn; lia.
  - intros r Hin. destruct (profiles_of u pt w); cbn in Hin.
    + contradiction.
    + destruct Hin as [<- | []]. reflexivity.
  - unfold setUsersCustomWeights. run.
    destruct (filter _ (custom_weights w)); reflexivity.
Qed.

(** X16: what [getInitialCustomWeights] shows after a call of
    [setUsersCustomWeights].  The profiles of every other user are as
    before; those of the user are as before when the key had no profile
    (the call stored nothing), and are followed by one new profile when
    the key had one. *)
Theorem getInitialCustomWeights_after_setUsersCustomWeights
  (u : Z) (pt : string) (sa tr vi ec sp am : Z) (w : World) :
  (forall other, other <> u ->
     fst (getInitialCustomWeights other
            (snd (setUsersCustomWeights u pt sa tr vi ec sp am w)))
     = fst (getInitialCustomWeights other w))
  /\ (profiles_of u pt w = [] ->
      fst (getInitialCustomWeights u
             (snd (setUsersCustomWeights u pt sa tr vi ec sp am w)))
      = fst (getInitialCustomWeights u w))
  /\ (profiles_of u pt w <> [] ->
      fst (getInitialCustomWeights u
             (snd (setUsersCustomWeights u pt sa tr vi ec sp am w)))
      = Resolved
          (weights_of u w
           ++ [ {| user_id := u; property_type := pt; safety := sa; trnsprt := tr;
                   vitalty := vi; economc := ec; sptl_dm := sp; amenity := am |} ])%list).
Proof.
  assert (Hread : forall v w0,
            fst (getInitialCustomWeights v w0) = Resolved (weights_of v w0))
    by reflexivity.
  split; [| split].
  - intros other Hother. rewrite !Hread. unfold weights_of.
    rewrite setUsersCustomWeights_table, filter_app.
    destruct (profiles_of u pt w); cbn; [now rewrite app_nil_r |].
    apply Z.eqb_neq in Hother. rewrite Z.eqb_sym in Hother. rewrite Hother.
    now rewrite app_nil_r.
  - intros Hnone. rewrite !Hread. unfold weights_of.
    rewrite setUsersCustomWeights_table, Hnone. now rewrite app_nil_r.
  - intros Hsome. rewrite Hread. unfold weights_of.
    rewrite setUsersCustomWeights_table, filter_app.
    destruct (profiles_of u pt w); [congruence |].
    cbn. now rewrite Z.eqb_refl.
Qed.

(** The statement above, run on the sample world. *)
Lemma getInitialCustomWeights_after_setUsersCustomWeights_witness :
  fst (getInitialCustomWeights 1
         (snd (setUsersCustomWeights 2 "office" 1 2 3 4 5 6 Sample.world)))
  = fst (getInitialCustomWeights 1 Sample.world)
  /\ fst (getInitialCustomWeights 2
            (snd (setUsersCustomWeights 2 "office" 1 2 3 4 5 6 Sample.world)))
     = fst (getInitialCustomWeights 2 Sample.world)
  /\ fst (getInitialCustomWeights 1
            (snd (setUsersCustomWeights 1 "office" 1 2 3 4 5 6 Sample.world)))
     = Resolved
         [ Sample.weight_row 1 "office" 10;
           {| user_id := 1; property_type := "office"; safety := 1; trnsprt := 2;
              vitalty := 3; economc := 4; sptl_dm := 5; amenity := 6 |} ].
Proof.
  split; [| split].
  - apply (getInitialCustomWeights_after_setUsersCustomWeights
             2 "office" 1 2 3 4 5 6 Sample.world).
    discriminate.
  - apply (getInitialCustomWeights_after_setUsersCustomWeights
             2 "office" 1 2 3 4 5 6 Sample.world).
    reflexivity.
  - apply (getInitialCustomWeights_after_setUsersCustomWeights
             1 "office" 1 2 3 4 5 6 Sample.world).
    discriminate.
Defined.

(** ** Partner permissions, as resolved *)

(** X17: the partner permissions of a company are never empty and
    nothing is written to read them.  [getCompanyPartnerPermissions]
    always resolves, to a list with at least one partner, each of them a
    default partner or the partner of a permission row of that company;
    the tables are as before and one query was sent. *)
Theorem getCompanyPartnerPermissions_never_empty (companyId : Z) (w : World) :
  exists partners,
    getCompanyPartnerPermissions companyId w
    = (Resolved partners, count_db_query w)
    /\ partners <> []
    /\ (forall p, In p partners ->
          In p DEFAULT_COMPANY_PARTNER_PERMISSIONS
          \/ exists row, In row (company_partner_permissions w)
                         /\ perm_company_id row = companyId /\ partner row = p).
Proof.
  unfold getCompanyPartnerPermissions. run.
  destruct (filter _ (company_partner_permissions w)) as [| r rows] eqn:Hrows; cbn.
  - eexists. split; [reflexivity |]. split; [discriminate |].
    intros p Hin. now left.
  - eexists. split; [reflexivity |]. split; [discriminate |].
    intros p Hin. right.
    change (In p (map partner (r :: rows))) in Hin.
    apply in_map_iff in Hin. destruct Hin as [row [<- Hrow]].
    rewrite <- Hrows in Hrow. apply filter_In in Hrow.
    destruct Hrow as [Hrow Hcompany]. apply Z.eqb_eq in Hcompany.
    exists row. auto.
Qed.

(** ** Login types, as a list without duplicates *)

Lemma existsb_false_filter {A : Type} (p : A -> bool) (l : list A) :
  existsb p l = false -> filter p l = [].
Proof.
  induction l as [| x l IH]; cbn; [reflexivity |].
  destruct (p x); cbn; [discriminate | exact IH].
Qed.

Lemma occurrences_appended (t loginType : string) (l : list Js.value) :
  occurrences t (l ++ [Js.Str loginType])
  = (occurrences t l + if String.eqb loginType t then 1 else 0)%nat.
Proof.
  unfold occurrences. rewrite filter_app, length_app. cbn.
  destruct (String.eqb loginType t); reflexivity.
Qed.

Section LoginTypesKept.

Context `{Json} `{AsArray}.

(** X18: [updateUserLoginTypes] keeps the login types a list without
    duplicates, in order of first use.  For an account whose login types
    read as a list, the call resolves to an account that is the one given
    (when that list has the login type) or holds a new list (when it has
    not); in both cases the list has the login type, starts with the list
    read, is at most one entry longer, and holds no login type twice if
    the list read held none twice. *)
Theorem updateUserLoginTypes_adds_no_duplicate
  (u : User.t) (loginType : string) (l : list Js.value) (w : World) :
  getUserLoginTypes (Some u) = Resolved l ->
  exists u' l',
    fst (updateUserLoginTypes (Some u) loginType w) = Resolved (Some u')
    /\ ((u' = u /\ l' = l) \/ User.login_types u' = Js.Arr l')
    /\ (exists added, l' = (l ++ added)%list /\ (List.length added <= 1)%nat)
    /\ Js.includes l' loginType = true
    /\ (forall t, (occurrences t l <= 1)%nat -> (occurrences t l' <= 1)%nat).
Proof.
  intros Hread. destruct (Js.includes l loginType) eqn:Hhas.
  - exists u, l.
    rewrite (updateUserLoginTypes_present u loginType l w Hread Hhas).
    split; [reflexivity |]. split; [now left |].
    split; [exists []; split; [now rewrite app_nil_r | cbn; lia] |].
    split; [exact Hhas | auto].
  - destruct (updateUserLoginTypes_absent u loginType l w Hread Hhas)
      as [Hfirst _].
    exists (User.with_login_types (Js.Arr (l ++ [Js.Str loginType])) u),
           (l ++ [Js.Str loginType])%list.
    split; [exact Hfirst |]. split; [now right |].
    split; [exists [Js.Str loginType]; split; [reflexivity | cbn; lia] |].
    split; [apply includes_appended |].
    intros t Honce. rewrite occurrences_appended.
    destruct (String.eqb loginType t) eqn:Hsame; [| lia].
    apply String.eqb_eq in Hsame. subst t.
    unfold occurrences. unfold Js.includes in Hhas.
    rewrite (existsb_false_filter _ _ Hhas). cbn. lia.
Qed.

End LoginTypesKept.

(** The statement above, run on the sample world. *)
Lemma updateUserLoginTypes_adds_no_duplicate_witness :
  exists u' l',
    fst (updateUserLoginTypes (H := Sample.string_array_json)
           (H0 := Sample.wrap_as_array) (Some Sample.ann) "password" Sample.world)
    = Resolved (Some u')
    /\ ((u' = Sample.ann /\ l' = []) \/ User.login_types u' = Js.Arr l')
    /\ (exists added, l' = ([] ++ added)%list /\ (List.length added <= 1)%nat)
    /\ Js.includes l' "password" = true
    /\ (forall t, (occurrences t [] <= 1)%nat -> (occurrences t l' <= 1)%nat).
Proof.
  apply (updateUserLoginTypes_adds_no_duplicate (H := Sample.string_array_json)
           (H0 := Sample.wrap_as_array) Sample.ann "password" [] Sample.world).
  reflexivity.
Defined.

(** ** Temporary passwords, checked again *)

Section TemporaryPasswordChecked.

Context `{Bcrypt}.

(** X19: checking a temporary password consumes nothing and does not
    look at the status.  [checkTemporaryPassword] leaves the users table
    as it was, a second check at the same time gives what the first gave,
    and after [deactivate], of whatever id, the check gives what it gave
    before: a pending temporary password of a deactivated account is
    still accepted. *)
Theorem checkTemporaryPassword_repeatable
  (userId : Z) (candidate : string) (w : World) :
  users (snd (checkTemporaryPassword userId candidate w)) = users w
  /\ fst (checkTemporaryPassword userId candidate
            (snd (checkTemporaryPassword userId candidate w)))
     = fst (checkTemporaryPassword userId candidate w)
  /\ (forall other,
        fst (checkTemporaryPassword userId candidate (snd (deactivate other w)))
        = fst (checkTemporaryPassword userId candidate w)).
Proof.
  assert (Husers : users (snd (checkTemporaryPassword userId candidate w)) = users w
                   /\ now (snd (checkTemporaryPassword userId candidate w)) = now w).
  { unfold checkTemporaryPassword. run.
    destruct (first (filter _ (users w))) as [r |]; [| split; reflexivity].
    destruct (negb _ || _); split; reflexivity. }
  destruct Husers as [Husers Hnow].
  split; [exact Husers |]. split.
  - rewrite !checkTemporaryPassword_by_row. unfold row_of.
    now rewrite Husers, Hnow.
  - intros other. rewrite !checkTemporaryPassword_by_row.
    unfold row_of, deactivate. run.
    rewrite filter_map_commute.
    2: { intros r. destruct (id r =? other); reflexivity. }
    rewrite first_map.
    destruct (first (filter _ (users w))) as [r |]; [| reflexivity].
    cbn. destruct (id r =? other); reflexivity.
Qed.

End TemporaryPasswordChecked.

(** ** Notices *)

(** X20: [updateNoticeEmailSent] raises the flag and nothing else.  For
    an existing id, the account [find] resolves to afterwards has the
    notice flag set; no other column changes, in any row; and a second
    call leaves the table the first one left. *)
Theorem updateNoticeEmailSent_sets_the_flag (userId : Z) (w : World) :
  (exists r, In r (users w) /\ id r = userId) ->
  (exists u,
     fst (find userId (snd (updateNoticeEmailSent userId w))) = Resolved (Found u)
     /\ User.notice_email_sent u = Some true)
  /\ map (set_notice_email_sent None) (users (snd (updateNoticeEmailSent userId w)))
     = map (set_notice_email_sent None) (users w)
  /\ users (snd (updateNoticeEmailSent userId (snd (updateNoticeEmailSent userId w))))
     = users (snd (updateNoticeEmailSent userId w)).
Proof.
  intros Hexists. split; [| split].
  - rewrite find_by_row. unfold row_of, updateNoticeEmailSent. run.
    rewrite filter_update by reflexivity. rewrite first_map.
    destruct (first_filter_some (fun r => id r =? userId) (users w))
      as [r [Hr _]].
    { destruct Hexists as [r [Hin Hid]]. exists r. split; [exact Hin |].
      now apply Z.eqb_eq. }
    rewrite Hr. cbn. eexists. split; reflexivity.
  - unfold updateNoticeEmailSent. run. rewrite map_map. apply map_ext.
    intros r. destruct (id r =? userId); reflexivity.
  - unfold updateNoticeEmailSent. run. rewrite map_map. apply map_ext.
    intros r. destruct (id r =? userId) eqn:Hid; cbn; now rewrite Hid.
Qed.

(** The statement above, run on the sample world. *)
Lemma updateNoticeEmailSent_sets_the_flag_witness :
  exists u,
    fst (find 2 (snd (updateNoticeEmailSent 2 Sample.world))) = Resolved (Found u)
    /\ User.notice_email_sent u = Some true.
Proof.
  apply (updateNoticeEmailSent_sets_the_flag 2 Sample.world).
  eexists. split; [right; left; reflexivity | reflexivity].
Defined.
